(** * Media Transfer Software: the HTTPS upload server ([server.js])

    A shallow embedding of [Media Transfer Software/server.js] and the
    properties of its filename allocator, its three route handlers and its
    HTTPS start-up.

    JavaScript strings are modelled as [string]; indices and sizes are [Z]
    (with the [-1] sentinels of the library loops written out) or [nat]
    where the code counts down a loop index. *)

From Stdlib Require Import ZArith QArith Qround Lia Bool Ascii String.
From Stdlib Require Import Numbers.DecimalString.
From stdpp Require Import base list strings.

Local Open Scope Z_scope.

(** ** JavaScript strings *)

Module JsString.

(** [s.charCodeAt(i)] for [0 <= i]; [None] stands for the [NaN] that an
    index past the end yields (it compares unequal to every character). *)
Definition charCodeAt (s : string) (i : nat) : option ascii := String.get i s.

Definition is_char (c : ascii) (o : option ascii) : bool :=
  match o with
  | Some d => Ascii.eqb d c
  | None => false
  end.

(** [s.slice(from, to)]: negative indices count from the end, both are
    clamped to the string. *)
Definition slice (s : string) (from to : Z) : string :=
  let len := Z.of_nat (String.length s) in
  let norm k := if k <? 0 then Z.max (len + k) 0 else Z.min k len in
  let a := norm from in
  let b := norm to in
  String.substring (Z.to_nat a) (Z.to_nat (b - a)) s.

(** [s.substring(0, n)] for [0 <= n]. *)
Definition substring0 (s : string) (n : nat) : string := String.substring 0 n s.

Definition startsWith (s p : string) : bool := String.prefix p s.

Definition endsWith (s p : string) : bool :=
  let n := String.length s in
  let m := String.length p in
  (m <=? n)%nat && String.eqb (String.substring (n - m) m s) p.

(** [s.replace(/[:.]/g, '-')]: every character of the class is replaced. *)
Fixpoint replace_colon_dot (s : string) : string :=
  match s with
  | EmptyString => EmptyString
  | String c r =>
      String (if Ascii.eqb c ":" || Ascii.eqb c "." then "-"%char else c)
             (replace_colon_dot r)
  end.

(** A number that is an integer, printed the way a template literal
    prints it. *)
Definition of_int (z : Z) : string := NilZero.string_of_int (Z.to_int z).

End JsString.

(** ** Loops that count down and may [break] *)

Inductive flow (S : Type) :=
| Continue (s : S)
| Break (s : S).
Arguments Continue {S} s.
Arguments Break {S} s.

(** [for (let i = n - 1; i >= 0; --i) body]. *)
Fixpoint for_down {S : Type} (body : nat -> S -> flow S) (n : nat) (st : S) : S :=
  match n with
  | O => st
  | S i =>
      match body i st with
      | Continue st' => for_down body i st'
      | Break st' => st'
      end
  end.

(** ** Node's [path] module (POSIX flavour): [extname] and [basename]

    The two functions scan the path from its last character to its first
    and keep a few indices; the loop bodies below follow them statement by
    statement. *)

Module path.
Import JsString.

Definition CHAR_FORWARD_SLASH : ascii := "/".
Definition CHAR_DOT : ascii := ".".

(** *** [extname] *)

Record ext_state := {
  startDot : Z;
  startPart : Z;
  ext_end : Z;
  ext_matchedSlash : bool;
  preDotState : Z
}.

Definition set_startDot (v : Z) (st : ext_state) : ext_state :=
  {| startDot := v; startPart := startPart st; ext_end := ext_end st;
     ext_matchedSlash := ext_matchedSlash st; preDotState := preDotState st |}.

Definition set_startPart (v : Z) (st : ext_state) : ext_state :=
  {| startDot := startDot st; startPart := v; ext_end := ext_end st;
     ext_matchedSlash := ext_matchedSlash st; preDotState := preDotState st |}.

Definition set_ext_end (v : Z) (st : ext_state) : ext_state :=
  {| startDot := startDot st; startPart := startPart st; ext_end := v;
     ext_matchedSlash := ext_matchedSlash st; preDotState := preDotState st |}.

Definition set_ext_matchedSlash (v : bool) (st : ext_state) : ext_state :=
  {| startDot := startDot st; startPart := startPart st; ext_end := ext_end st;
     ext_matchedSlash := v; preDotState := preDotState st |}.

Definition set_preDotState (v : Z) (st : ext_state) : ext_state :=
  {| startDot := startDot st; startPart := startPart st; ext_end := ext_end st;
     ext_matchedSlash := ext_matchedSlash st; preDotState := v |}.

Definition extname_body (p : string) (i : nat) (st : ext_state)
  : flow ext_state :=
  let code := charCodeAt p i in
  if is_char CHAR_FORWARD_SLASH code then
    (* a separator: stop unless it trails the path *)
    if negb (ext_matchedSlash st)
    then Break (set_startPart (Z.of_nat i + 1) st)
    else Continue st
  else
    let st :=
      if ext_end st =? -1
      then set_ext_end (Z.of_nat i + 1) (set_ext_matchedSlash false st)
      else st in
    Continue
      (if is_char CHAR_DOT code then
         if startDot st =? -1 then set_startDot (Z.of_nat i) st
         else if negb (preDotState st =? 1) then set_preDotState 1 st
         else st
       else if negb (startDot st =? -1) then set_preDotState (-1) st
       else st).

Definition extname_init : ext_state :=
  {| startDot := -1; startPart := 0; ext_end := -1;
     ext_matchedSlash := true; preDotState := 0 |}.

Definition extname (p : string) : string :=
  let st := for_down (extname_body p) (String.length p) extname_init in
  if (startDot st =? -1)
     || (ext_end st =? -1)
     || (preDotState st =? 0)
     || ((preDotState st =? 1)
         && (startDot st =? ext_end st - 1)
         && (startDot st =? startPart st + 1))
  then EmptyString
  else slice p (startDot st) (ext_end st).

(** *** [basename] *)

Record base_state := {
  start : Z;
  base_end : Z;
  base_matchedSlash : bool;
  extIdx : Z;
  firstNonSlashEnd : Z
}.

Definition set_start (v : Z) (st : base_state) : base_state :=
  {| start := v; base_end := base_end st;
     base_matchedSlash := base_matchedSlash st; extIdx := extIdx st;
     firstNonSlashEnd := firstNonSlashEnd st |}.

Definition set_base_end (v : Z) (st : base_state) : base_state :=
  {| start := start st; base_end := v;
     base_matchedSlash := base_matchedSlash st; extIdx := extIdx st;
     firstNonSlashEnd := firstNonSlashEnd st |}.

Definition set_base_matchedSlash (v : bool) (st : base_state) : base_state :=
  {| start := start st; base_end := base_end st;
     base_matchedSlash := v; extIdx := extIdx st;
     firstNonSlashEnd := firstNonSlashEnd st |}.

Definition set_extIdx (v : Z) (st : base_state) : base_state :=
  {| start := start st; base_end := base_end st;
     base_matchedSlash := base_matchedSlash st; extIdx := v;
     firstNonSlashEnd := firstNonSlashEnd st |}.

Definition set_firstNonSlashEnd (v : Z) (st : base_state) : base_state :=
  {| start := start st; base_end := base_end st;
     base_matchedSlash := base_matchedSlash st; extIdx := extIdx st;
     firstNonSlashEnd := v |}.

(** [a === b] on two character codes, [NaN] being unequal to all. *)
Definition same_code (a b : option ascii) : bool :=
  match a, b with
  | Some c, Some d => Ascii.eqb c d
  | _, _ => false
  end.

(** The loop taken when a non-empty suffix no longer than the path is
    given. *)
Definition basename_suffix_body (p suffix : string) (i : nat) (st : base_state)
  : flow base_state :=
  let code := charCodeAt p i in
  if is_char CHAR_FORWARD_SLASH code then
    if negb (base_matchedSlash st)
    then Break (set_start (Z.of_nat i + 1) st)
    else Continue st
  else
    let st :=
      if firstNonSlashEnd st =? -1
      then set_firstNonSlashEnd (Z.of_nat i + 1)
             (set_base_matchedSlash false st)
      else st in
    Continue
      (if 0 <=? extIdx st then
         if same_code code (charCodeAt suffix (Z.to_nat (extIdx st))) then
           (* if (--extIdx === -1) end = i *)
           let st := set_extIdx (extIdx st - 1) st in
           if extIdx st =? -1 then set_base_end (Z.of_nat i) st else st
         else
           set_base_end (firstNonSlashEnd st) (set_extIdx (-1) st)
       else st).

(** The loop taken otherwise. *)
Definition basename_plain_body (p : string) (i : nat) (st : base_state)
  : flow base_state :=
  if is_char CHAR_FORWARD_SLASH (charCodeAt p i) then
    if negb (base_matchedSlash st)
    then Break (set_start (Z.of_nat i + 1) st)
    else Continue st
  else if base_end st =? -1 then
    Continue (set_base_end (Z.of_nat i + 1) (set_base_matchedSlash false st))
  else Continue st.

Definition basename_init (suffix : string) : base_state :=
  {| start := 0; base_end := -1; base_matchedSlash := true;
     extIdx := Z.of_nat (String.length suffix) - 1; firstNonSlashEnd := -1 |}.

Definition basename (p suffix : string) : string :=
  if (0 <? String.length suffix)%nat
     && (String.length suffix <=? String.length p)%nat
  then
    if String.eqb suffix p then EmptyString
    else
      let st := for_down (basename_suffix_body p suffix) (String.length p)
                  (basename_init suffix) in
      let e :=
        if start st =? base_end st then firstNonSlashEnd st
        else if base_end st =? -1 then Z.of_nat (String.length p)
        else base_end st in
      slice p (start st) e
  else
    let st := for_down (basename_plain_body p) (String.length p)
                (basename_init suffix) in
    if base_end st =? -1 then EmptyString
    else slice p (start st) (base_end st).

End path.

(** ** The filename allocator ([storage.filename])

    [iso] is the value of [new Date().toISOString()] at the call. *)

Definition filename (iso originalname : string) : string :=
  let timestamp := JsString.replace_colon_dot iso in
  let ext := path.extname originalname in
  let name := path.basename originalname ext in
  name +:+ "_" +:+ timestamp +:+ ext.

(** ** JavaScript values used by the handlers *)

(** Values that reach [res.json]: object fields keep the order of the object
    literal that built them. *)
#[warnings="-register-all"] Inductive json :=
| JNull
| JBool (b : bool)
| JNum (n : Z)
| JStr (s : string)
| JArr (items : list json)
| JObj (fields : list (string * json)).

(** [o[k]] on an object; [None] is [undefined]. *)
Fixpoint get_prop (fields : list (string * json)) (k : string) : option json :=
  match fields with
  | [] => None
  | (k', v) :: rest => if String.eqb k' k then Some v else get_prop rest k
  end.

Definition prop (j : json) (k : string) : option json :=
  match j with
  | JObj fields => get_prop fields k
  | _ => None
  end.

(** Truthiness, and [a || b]. *)
Definition truthy (v : option json) : bool :=
  match v with
  | None => false
  | Some JNull => false
  | Some (JBool b) => b
  | Some (JNum n) => negb (n =? 0)
  | Some (JStr s) => negb (String.eqb s EmptyString)
  | Some (JArr _) => true
  | Some (JObj _) => true
  end.

Definition js_or (a : option json) (b : json) : json :=
  match a with
  | Some v => if truthy a then v else b
  | None => b
  end.

(** Numbers. Every division in the program is by 1024 and every dividend an
    integer byte count, so the quotients are exact and rationals model them;
    [NaN] is what arithmetic on [undefined] gives. *)
Module JsNumber.

Inductive number :=
| NaN
| Fin (q : Q).

(** [ToNumber] of a property that is an integer or [undefined]. *)
Definition of_prop (o : option Z) : number :=
  match o with
  | Some z => Fin (inject_Z z)
  | None => NaN
  end.

Definition div (x : number) (d : Z) : number :=
  match x with
  | NaN => NaN
  | Fin q => Fin (q / inject_Z d)%Q
  end.

(** [Math.round]: the nearest integer, ties upwards; [None] is [NaN]. *)
Definition Math_round (x : number) : option Z :=
  match x with
  | NaN => None
  | Fin q => Some (Qfloor (q + (1 # 2))%Q)
  end.

(** A rounded number inside a template literal. *)
Definition to_string (r : option Z) : string :=
  match r with
  | None => "NaN"
  | Some z => JsString.of_int z
  end.

End JsNumber.

(** Error objects: the properties the program reads ([None] is an absent
    property). *)
Record JsError := {
  err_code : option string;
  err_message : string;
  err_field : option string;
  err_limit : option Z
}.

Inductive result (A : Type) :=
| Ok (a : A)
| Err (e : JsError).
Arguments Ok {A} a.
Arguments Err {A} e.

(** ** multer: limits, errors and the file record

    [upload = multer({ storage, limits })] and [upload.single('file')]. *)

Record Limits := { fileSize : Z; fieldSize : Z; files : Z }.

Definition upload_limits : Limits :=
  {| fileSize := 10000 * 1024 * 1024;
     fieldSize := 50 * 1024 * 1024;
     files := 1 |}.

(** multer's table of messages ([lib/multer-error.js]). *)
Definition errorMessages (code : string) : string :=
  if String.eqb code "LIMIT_PART_COUNT" then "Too many parts"
  else if String.eqb code "LIMIT_FILE_SIZE" then "File too large"
  else if String.eqb code "LIMIT_FILE_COUNT" then "Too many files"
  else if String.eqb code "LIMIT_FIELD_KEY" then "Field name too long"
  else if String.eqb code "LIMIT_FIELD_VALUE" then "Field value too long"
  else if String.eqb code "LIMIT_FIELD_COUNT" then "Too many fields"
  else if String.eqb code "LIMIT_UNEXPECTED_FILE" then "Unexpected field"
  else if String.eqb code "MISSING_FIELD_NAME" then "Field name missing"
  else EmptyString.

(** [new MulterError(code, field)] sets [name], [message], [code] and
    [field], and nothing else: the object has no [limit] property. *)
Definition MulterError (code : string) (field : string) : JsError :=
  {| err_code := Some code;
     err_message := errorMessages code;
     err_field := Some field;
     err_limit := None |}.

(** What multer passes to the callback when a file part of [bytes] bytes
    arrives in field [field]: the stream hits the [fileSize] limit and the
    upload is aborted with [LIMIT_FILE_SIZE]. *)
Definition multer_file_verdict (field : string) (bytes : Z) : option JsError :=
  if fileSize upload_limits <? bytes
  then Some (MulterError "LIMIT_FILE_SIZE" field)
  else None.

(** The same for a non-file field whose value has [bytes] bytes: a value
    truncated at [fieldSize] aborts with [LIMIT_FIELD_VALUE]. *)
Definition multer_field_verdict (field : string) (bytes : Z) : option JsError :=
  if fieldSize upload_limits <? bytes
  then Some (MulterError "LIMIT_FIELD_VALUE" field)
  else None.

(** [req.file] as multer's disk storage fills it. *)
Module File.
Record t := {
  fieldname : string;
  originalname : string;
  encoding : string;
  mimetype : string;
  destination : string;
  filename : string;
  path : string;
  size : Z
}.
End File.

(** The request as the callback of [upload.single('file')] sees it.
    [req.body] is [undefined] when multer did not parse the request. *)
Record Request := {
  req_file : option File.t;
  req_body : option (list (string * json))
}.

(** ** The environment and the observable effects *)

Module Stats.
Record t := {
  size : Z;
  mtime : string   (* the [Date], as [res.json] serialises it *)
}.
End Stats.

Inductive Server := HttpsServer (key cert : string).

(** What the calls into Node answer during one handler run: the clock and
    [fs.promises]; [https.createServer] throws on unusable key material. *)
Record World := {
  now : string;    (* [new Date().toISOString()] *)
  fs_readFile : string -> result string;
  fs_readdir : string -> result (list string);
  fs_stat : string -> result Stats.t;
  https_createServer : string -> string -> result Server
}.

Inductive js_arg :=
| AStr (s : string)
| AErr (e : JsError)
| AJson (j : json).

Inductive transport := Plain | Tls.

Inductive fs_op := op_readFile | op_readdir | op_stat.

(** What a run does to the outside: console output, calls into
    [fs.promises], binding a socket, ending the process. *)
Inductive event :=
| console_log (args : list js_arg)
| console_error (args : list js_arg)
| fs_call (op : fs_op) (p : string)
| listen (t : transport) (port : Z)
| process_exit (code : Z).

Record Response := { status : Z; body : json }.

(** Effects are collected in order. *)
Definition M (A : Type) : Type := list event * A.

Definition ret {A} (a : A) : M A := ([], a).

Definition bind {A B} (m : M A) (k : A -> M B) : M B :=
  let '(t1, a) := m in
  let '(t2, b) := k a in
  (t1 ++ t2, b).

Definition emit (e : event) : M unit := ([e], tt).

Notation "x <- c ;; k" := (bind c (fun x => k))
  (at level 100, c at next level, right associativity).
Notation "c ;; k" := (bind c (fun _ => k))
  (at level 100, right associativity).

Definition trace {A} (m : M A) : list event := fst m.
Definition value {A} (m : M A) : A := snd m.

(** [xs.map(f)] for an effectful [f]. *)
Fixpoint map_M {A B} (f : A -> M B) (xs : list A) : M (list B) :=
  match xs with
  | [] => ret []
  | x :: rest =>
      y <- f x ;;
      ys <- map_M f rest ;;
      ret (y :: ys)
  end.

(** [await fs.readFile(p, enc)], [await fs.readdir(p)], [await fs.stat(p)]:
    the call is recorded, the environment answers. *)
Definition readFile (w : World) (p : string) : M (result string) :=
  emit (fs_call op_readFile p) ;; ret (fs_readFile w p).

Definition readdir (w : World) (p : string) : M (result (list string)) :=
  emit (fs_call op_readdir p) ;; ret (fs_readdir w p).

Definition stat (w : World) (p : string) : M (result Stats.t) :=
  emit (fs_call op_stat p) ;; ret (fs_stat w p).

(** [res.status(code).json(body)] and [res.json(body)]. *)
Definition respond (code : Z) (fields : list (string * json)) : Response :=
  {| status := code; body := JObj fields |}.

(** [await Promise.all(promises)]. The promises settle in the order [sched]
    (a list of indices); a fulfilled one stores its value at its own index
    and the last one resolves the whole, a rejected one rejects it at once.
    [None]: still pending when [sched] is exhausted. *)
Section Promise.
Context {A : Type}.

Fixpoint Promise_all_settle (promises : list (result A)) (sched : list nat)
    (values : list (option A)) (remaining : nat)
  : option (result (list (option A))) :=
  match sched with
  | [] => None
  | i :: rest =>
      match promises !! i with
      | None => Promise_all_settle promises rest values remaining
      | Some (Err e) => Some (Err e)
      | Some (Ok v) =>
          let values' := <[i := Some v]> values in
          let remaining' := (remaining - 1)%nat in
          if (remaining' =? 0)%nat then Some (Ok values')
          else Promise_all_settle promises rest values' remaining'
      end
  end.

Definition Promise_all (promises : list (result A)) (sched : list nat)
  : option (result (list (option A))) :=
  let n := length promises in
  if (n =? 0)%nat then Some (Ok [])
  else Promise_all_settle promises sched (replicate n None) n.

End Promise.

(** ** The server *)

Section Server.

(** [__dirname] and Node's [path.join]. *)
Variable dirname : string.
Variable path_join : string -> string -> string.

Definition PORT : Z := 3443.

Definition uploadsDir : string := path_join dirname "uploads".

(** *** [storage]: where multer's disk storage puts a file *)

Definition destination : string := uploadsDir.

(** [storage.filename] is [filename] above. *)

(** *** [app.post('/upload')]: the callback of [upload.single('file')] *)

(** The preview that is logged for textual files; a failed read is logged
    and goes no further. *)
Definition log_preview (w : World) (f : File.t) : M unit :=
  if JsString.startsWith (File.mimetype f) "text/"
     || JsString.endsWith (File.originalname f) ".json"
     || JsString.endsWith (File.originalname f) ".js"
     || JsString.endsWith (File.originalname f) ".html"
     || JsString.endsWith (File.originalname f) ".css"
  then
    r <- readFile w (File.path f) ;;
    match r with
    | Ok content =>
        let preview :=
          if (500 <? String.length content)%nat
          then JsString.substring0 content 500 +:+ "..."
          else content in
        emit (console_log [AStr "📄 File preview:"; AStr preview])
    | Err readError =>
        emit (console_log [AStr "❌ Could not read file content:";
                           AStr (err_message readError)])
    end
  else ret tt.

(** Reading [req.body.path] while [req.body] is [undefined] throws. *)
Definition TypeError_body_path : JsError :=
  {| err_code := None;
     err_message := "Cannot read properties of undefined (reading 'path')";
     err_field := None;
     err_limit := None |}.

Definition fileInfo (w : World) (f : File.t) (body : list (string * json))
  : json :=
  JObj [("originalName", JStr (File.originalname f));
        ("savedAs", JStr (File.filename f));
        ("size", JNum (File.size f));
        ("mimeType", JStr (File.mimetype f));
        ("path", js_or (get_prop body "path") (JStr (File.originalname f)));
        ("uploadTime", JStr (now w));
        ("savedPath", JStr (File.path f))].

Definition post_upload (w : World) (err : option JsError) (req : Request)
  : M Response :=
  match err with
  | Some e =>
      emit (console_error [AStr "❌ Multer error:"; AErr e]) ;;
      if match err_code e with
         | Some c => String.eqb c "LIMIT_FILE_SIZE"
         | None => false
         end
      then
        ret (respond 413
               [("success", JBool false);
                ("error", JStr "File too large");
                ("details",
                 JStr ("File size exceeds the limit of "
                       +:+ JsNumber.to_string
                             (JsNumber.Math_round
                                (JsNumber.div
                                   (JsNumber.div
                                      (JsNumber.of_prop (err_limit e)) 1024)
                                   1024))
                       +:+ "MB"));
                ("maxSize", JStr "1GB")])
      else
        ret (respond 400
               [("success", JBool false);
                ("error", JStr "Upload error");
                ("details", JStr (err_message e))])
  | None =>
      match req_file req with
      | None =>
          ret (respond 400
                 [("success", JBool false);
                  ("error", JStr "No file uploaded")])
      | Some f =>
          emit (console_log
                  [AStr ("📤 Receiving file: " +:+ File.originalname f
                         +:+ " ("
                         +:+ JsNumber.to_string
                               (JsNumber.Math_round
                                  (JsNumber.div
                                     (JsNumber.of_prop (Some (File.size f)))
                                     1024))
                         +:+ "KB)")]) ;;
          match req_body req with
          | Some body =>
              emit (console_log [AStr "📁 File uploaded:";
                                 AJson (fileInfo w f body)]) ;;
              log_preview w f ;;
              ret (respond 200
                     [("success", JBool true);
                      ("message", JStr "File uploaded successfully");
                      ("file", fileInfo w f body)])
          | None =>
              (* the [catch] of the handler *)
              let error := TypeError_body_path in
              emit (console_error [AStr "❌ Upload error:"; AErr error]) ;;
              ret (respond 500
                     [("success", JBool false);
                      ("error", JStr "Internal server error");
                      ("details", JStr (err_message error))])
          end
      end
  end.

(** *** [app.get('/files')] *)

(** One callback of [files.map]: it issues the [fs.stat] of [filename]; its
    promise is fulfilled with the entry or rejected with the error of the
    call. *)
Definition file_details (w : World) (filename : string) : M (result json) :=
  let filePath := path_join uploadsDir filename in
  r <- stat w filePath ;;
  match r with
  | Ok stats =>
      ret (Ok (JObj [("name", JStr filename);
                     ("size", JNum (Stats.size stats));
                     ("modified", JStr (Stats.mtime stats));
                     ("path", JStr filePath)]))
  | Err e => ret (Err e)
  end.

(** [sched] is the order in which the [fs.stat] calls complete. The answer
    is [None] while the handler is still waiting when [sched] is
    exhausted. *)
Definition get_files (w : World) (sched : list nat) : M (option Response) :=
  r <- readdir w uploadsDir ;;
  attempt <- match r with
             | Ok files =>
                 promises <- map_M (file_details w) files ;;
                 ret (Promise_all promises sched)
             | Err e => ret (Some (Err e))
             end ;;
  match attempt with
  | None => ret None
  | Some (Ok fileDetails) =>
      ret (Some (respond 200
                   [("success", JBool true);
                    ("files", JArr (map (default JNull) fileDetails))]))
  | Some (Err error) =>
      emit (console_error [AStr "❌ Error listing files:"; AErr error]) ;;
      ret (Some (respond 500
                   [("success", JBool false);
                    ("error", JStr "Could not list files");
                    ("details", JStr (err_message error))]))
  end.

(** *** [app.get('/health')] *)

Definition get_health (w : World) : M Response :=
  ret (respond 200
         [("success", JBool true);
          ("message", JStr "Server is running");
          ("timestamp", JStr (now w));
          ("uploadsDirectory", JStr uploadsDir)]).

(** *** [startHttpsServer] *)

(** The callback handed to [server.listen]: it is not part of the run of
    [startHttpsServer]; it runs later, once the socket is bound, and not at
    all when the bind fails. *)
Definition on_listening : M unit :=
  emit (console_log
          [AStr ("� HTTPS Server running at https://localhost:"
                 +:+ JsString.of_int PORT)]).

(** The run up to the [return]; [listen] records the call
    [server.listen(PORT, ...)]. *)
Definition startHttpsServer (w : World) : M (option Server) :=
  key_read <- readFile w "./private.key" ;;
  attempt <- match key_read with
             | Ok key =>
                 cert_read <- readFile w "./public.crt" ;;
                 match cert_read with
                 | Ok cert => ret (https_createServer w key cert)
                 | Err e => ret (Err e)
                 end
             | Err e => ret (Err e)
             end ;;
  match attempt with
  | Ok server =>
      emit (listen Tls PORT) ;;
      ret (Some server)
  | Err error =>
      emit (console_error [AStr "Error starting HTTPS server:"; AErr error]) ;;
      emit (console_error
              [AStr "Make sure public.cert and private.key files exist in the same directory"]) ;;
      emit (process_exit 1) ;;
      ret None
  end.

End Server.

(** ** Concrete environments used to exercise the handlers *)

Definition ENOENT (syscall p : string) : JsError :=
  {| err_code := Some "ENOENT";
     err_message := "ENOENT: no such file or directory, " +:+ syscall
                    +:+ " '" +:+ p +:+ "'";
     err_field := None;
     err_limit := None |}.

(** [path.join] on a normalised directory and a plain entry name. *)
Definition plain_join (dir entry : string) : string := dir +:+ "/" +:+ entry.

(** A service directory without TLS material and with an empty uploads
    directory. *)
Definition bare_world : World :=
  {| now := "2024-01-02T03:04:05.678Z";
     fs_readFile := fun p => Err (ENOENT "open" p);
     fs_readdir := fun _ => Ok [];
     fs_stat := fun p => Err (ENOENT "stat" p);
     https_createServer := fun key cert => Ok (HttpsServer key cert) |}.

(** An uploads directory holding two files. *)
Definition two_files_world : World :=
  {| now := "2024-01-02T03:04:05.678Z";
     fs_readFile := fun p => Err (ENOENT "open" p);
     fs_readdir := fun _ => Ok ["b.txt"; "a.txt"]%string;
     fs_stat := fun p =>
       if String.eqb p "/srv/app/uploads/a.txt"
       then Ok {| Stats.size := 8; Stats.mtime := "2024-01-01T00:00:00.000Z" |}
       else if String.eqb p "/srv/app/uploads/b.txt"
       then Ok {| Stats.size := 1024; Stats.mtime := "2024-01-01T00:00:01.000Z" |}
       else Err (ENOENT "stat" p);
     https_createServer := fun key cert => Ok (HttpsServer key cert) |}.

(** An uploads directory whose only entry is a symbolic link to a file that
    does not exist: [readdir] lists it, [stat] fails on it. *)
Definition dangling_link_world : World :=
  {| now := "2024-01-02T03:04:05.678Z";
     fs_readFile := fun p => Err (ENOENT "open" p);
     fs_readdir := fun _ => Ok ["ghost.txt"]%string;
     fs_stat := fun p => Err (ENOENT "stat" p);
     https_createServer := fun key cert => Ok (HttpsServer key cert) |}.

Definition report_file : File.t :=
  {| File.fieldname := "file";
     File.originalname := "report.json";
     File.encoding := "7bit";
     File.mimetype := "application/json";
     File.destination := "/srv/app/uploads";
     File.filename := "report_2024-01-02T03-04-05-600Z.json";
     File.path := "/srv/app/uploads/report_2024-01-02T03-04-05-600Z.json";
     File.size := 7 |}.

Definition no_file_request : Request :=
  {| req_file := None; req_body := Some [] |}.

(** ** Notions used to state the properties *)

(** How often [c] occurs in [s], and [s.lastIndexOf(c)]. *)
Fixpoint count_char (c : ascii) (s : string) : nat :=
  match s with
  | EmptyString => 0
  | String a r => (if Ascii.eqb a c then 1 else 0) + count_char c r
  end.

Fixpoint lastIndexOf (c : ascii) (s : string) : option nat :=
  match s with
  | EmptyString => None
  | String a r =>
      match lastIndexOf c r with
      | Some i => Some (S i)
      | None => if Ascii.eqb a c then Some O else None
      end
  end.

(** The extension of a name without directory part: what follows the last
    dot, that dot included, unless the dot opens the name or the name is
    [".."]. *)
Definition extension_of (p : string) : string :=
  match lastIndexOf "." p with
  | Some (S d) =>
      if String.eqb p ".." then EmptyString
      else String.substring (S d) (String.length p - S d) p
  | _ => EmptyString
  end.

(** What [replace] does to one character. *)
Definition dash_colon_dot (c : ascii) : ascii :=
  if Ascii.eqb c ":" || Ascii.eqb c "." then "-"%char else c.


(** The state of the [extname] loop of a name without [/] when [n] indices
    remain to be visited. *)
Definition ext_inv (p : string) (n : nat) (st : path.ext_state) : Prop :=
  let len := Z.of_nat (String.length p) in
  path.startPart st = 0
  /\ (Z.of_nat n = len -> path.ext_end st = -1)
  /\ (Z.of_nat n < len -> path.ext_end st = len)
  /\ match lastIndexOf "." p with
     | None => path.startDot st = -1 /\ path.preDotState st = 0
     | Some d =>
         ((d < n)%nat -> path.startDot st = -1 /\ path.preDotState st = 0)
         /\ (n = d -> path.startDot st = Z.of_nat d /\ path.preDotState st = 0)
         /\ ((n < d)%nat ->
             path.startDot st = Z.of_nat d
             /\ path.preDotState st
                = if JsString.is_char "." (String.get n p) then 1 else -1)
     end.

(** The same for the suffix loop of [basename], the suffix being what
    follows index [d]. *)
Definition base_inv (p : string) (d : nat) (n : nat) (st : path.base_state)
  : Prop :=
  let len := Z.of_nat (String.length p) in
  path.start st = 0
  /\ (Z.of_nat n = len -> path.firstNonSlashEnd st = -1)
  /\ (Z.of_nat n < len -> path.firstNonSlashEnd st = len)
  /\ ((d < n)%nat ->
      path.extIdx st = Z.of_nat n - 1 - Z.of_nat d /\ path.base_end st = -1)
  /\ ((n <= d)%nat ->
      path.extIdx st = -1 /\ path.base_end st = Z.of_nat d).

(** And for its plain loop. *)
Definition plain_inv (p : string) (n : nat) (st : path.base_state) : Prop :=
  let len := Z.of_nat (String.length p) in
  path.start st = 0
  /\ (Z.of_nat n = len -> path.base_end st = -1)
  /\ (Z.of_nat n < len -> path.base_end st = len).


(** ** Further environments and notions *)

(** A service directory in which every file can be read and the uploads
    directory cannot be listed. *)
Definition readable_world : World :=
  {| now := "2024-01-02T03:04:05.678Z";
     fs_readFile := fun _ => Ok "[1, 2, 3]";
     fs_readdir := fun p => Err (ENOENT "scandir" p);
     fs_stat := fun p => Err (ENOENT "stat" p);
     https_createServer := fun key cert => Ok (HttpsServer key cert) |}.

Definition PEM_no_start_line : JsError :=
  {| err_code := Some "ERR_OSSL_PEM_NO_START_LINE";
     err_message := "error:0480006C:PEM routines::no start line";
     err_field := None;
     err_limit := None |}.

(** Key and certificate files that hold no key material. *)
Definition bad_tls_world : World :=
  {| now := "2024-01-02T03:04:05.678Z";
     fs_readFile := fun _ => Ok "not a key";
     fs_readdir := fun _ => Ok [];
     fs_stat := fun p => Err (ENOENT "stat" p);
     https_createServer := fun _ _ => Err PEM_no_start_line |}.

(** Whether the promise at index [i] is a fulfilled one. *)
Definition is_fulfilled {A} (promises : list (result A)) (i : nat) : bool :=
  match promises !! i with
  | Some (Ok _) => true
  | _ => false
  end.

(** * Properties *)

(** ** Strings *)

Section StringFacts.
Local Open Scope nat_scope.

Lemma get_None_length (s : string) : forall i,
  String.get i s = None <-> String.length s <= i.
Proof.
  induction s as [|a r IH]; intros i; simpl.
  - split; [lia | reflexivity].
  - destruct i as [|i]; [split; [discriminate | lia]|].
    rewrite IH. lia.
Qed.

Lemma get_Some_length (s : string) (i : nat) (c : ascii) :
  String.get i s = Some c -> i < String.length s.
Proof.
  intros H. destruct (le_lt_dec (String.length s) i) as [Hle|]; [|done].
  apply get_None_length in Hle. congruence.
Qed.

Lemma substring_full (s : string) :
  String.substring 0 (String.length s) s = s.
Proof. induction s as [|a r IH]; simpl; [reflexivity | by rewrite IH]. Qed.

Lemma append_String (a : ascii) (s t : string) :
  String a s +:+ t = String a (s +:+ t).
Proof. reflexivity. Qed.

Lemma substring_split (s : string) : forall d,
  d <= String.length s ->
  String.substring 0 d s +:+ String.substring d (String.length s - d) s = s.
Proof.
  induction s as [|a r IH]; intros d Hd.
  - destruct d; [reflexivity | simpl in Hd; lia].
  - destruct d as [|d].
    + rewrite Nat.sub_0_r, substring_full. reflexivity.
    + simpl. rewrite append_String. f_equal. apply IH. simpl in Hd. lia.
Qed.

Lemma get_substring (s : string) : forall d m k,
  k < m -> d + m <= String.length s ->
  String.get k (String.substring d m s) = String.get (d + k) s.
Proof.
  induction s as [|a r IH]; intros d m k Hk Hm; simpl in *; [lia|].
  destruct d as [|d]; simpl.
  - destruct m as [|m]; [lia|]. simpl. destruct k as [|k]; [reflexivity|].
    rewrite (IH 0 m k) by lia. reflexivity.
  - apply IH; lia.
Qed.

Lemma length_substring (s : string) : forall d m,
  d + m <= String.length s -> String.length (String.substring d m s) = m.
Proof.
  induction s as [|a r IH]; intros d m Hm; simpl in *.
  - destruct d, m; simpl; lia.
  - destruct d as [|d]; simpl.
    + destruct m as [|m]; [reflexivity|]. simpl. rewrite (IH 0 m) by lia. done.
    + apply IH. lia.
Qed.

End StringFacts.

Import JsString.

(** ** Loops *)

Lemma for_down_invariant {S : Type} (body : nat -> S -> flow S)
    (Inv : nat -> S -> Prop) (n : nat) :
  (forall i st, (i < n)%nat -> Inv (Datatypes.S i) st ->
                exists st', body i st = Continue st' /\ Inv i st') ->
  forall st, Inv n st -> Inv O (for_down body n st).
Proof.
  induction n as [|i IH]; intros Hstep st Hinv; [exact Hinv|].
  simpl. destruct (Hstep i st ltac:(lia) Hinv) as (st' & -> & Hinv').
  apply IH; [|exact Hinv']. intros j st0 Hj. apply Hstep. lia.
Qed.

(** ** [path.extname] and [path.basename] on names without directory part *)

Lemma count_char_zero (c : ascii) (s : string) :
  count_char c s = 0%nat -> forall i, is_char c (String.get i s) = false.
Proof.
  induction s as [|a r IH]; intros Hc i; simpl in *.
  - reflexivity.
  - destruct (Ascii.eqb a c) eqn:Ha; [discriminate|].
    destruct i as [|i]; simpl; [exact Ha | apply IH; exact Hc].
Qed.

Lemma lastIndexOf_None (c : ascii) (s : string) :
  lastIndexOf c s = None -> forall i, is_char c (String.get i s) = false.
Proof.
  induction s as [|a r IH]; intros Hl i; simpl in *.
  - reflexivity.
  - destruct (lastIndexOf c r) as [j|]; [discriminate|].
    destruct (Ascii.eqb a c) eqn:Ha; [discriminate|].
    destruct i as [|i]; simpl; [exact Ha | by apply IH].
Qed.

Lemma lastIndexOf_Some (c : ascii) (s : string) : forall d,
  lastIndexOf c s = Some d ->
  String.get d s = Some c
  /\ forall i, (d < i)%nat -> is_char c (String.get i s) = false.
Proof.
  induction s as [|a r IH]; intros d Hl; simpl in *.
  - discriminate.
  - destruct (lastIndexOf c r) as [j|] eqn:Hr.
    + injection Hl as <-. destruct (IH j eq_refl) as [Hget Hafter].
      split; [exact Hget|]. intros i Hi. destruct i as [|i]; [lia|].
      apply Hafter. lia.
    + destruct (Ascii.eqb a c) eqn:Ha; [|discriminate].
      injection Hl as <-. apply Ascii.eqb_eq in Ha. subst a.
      split; [reflexivity|]. intros i Hi. destruct i as [|i]; [lia|].
      by apply (lastIndexOf_None c r).
Qed.

Lemma is_char_Some (c : ascii) (o : option ascii) :
  o = Some c -> is_char c o = true.
Proof. intros ->. simpl. apply Ascii.eqb_refl. Qed.

Ltac case_eqb :=
  repeat (cbn in *;
          match goal with
          | |- context [Z.eqb ?a ?b] => destruct (Z.eqb_spec a b)
          | |- context [Z.leb ?a ?b] => destruct (Z.leb_spec a b)
          end);
  cbn in *.

Lemma extname_body_no_dir (p : string) (i : nat) (st : path.ext_state) :
  count_char "/" p = 0%nat ->
  (i < String.length p)%nat ->
  ext_inv p (S i) st ->
  exists st', path.extname_body p i st = Continue st' /\ ext_inv p i st'.
Proof.
  intros Hslash Hi Hinv.
  unfold path.extname_body, path.CHAR_FORWARD_SLASH, charCodeAt.
  rewrite (count_char_zero _ _ Hslash i).
  eexists; split; [reflexivity|].
  destruct st as [sd sp ee ms pd]. unfold ext_inv, charCodeAt in *.
  simpl in Hinv.
  destruct Hinv as (Hpart & Hend1 & Hend2 & Hdot).
  unfold path.CHAR_DOT.
  destruct (lastIndexOf "." p) as [d|] eqn:HL.
  - destruct (lastIndexOf_Some _ _ _ HL) as [Hd Hafter].
    destruct Hdot as (Hgt & Heq & Hlt).
    destruct (lt_eq_lt_dec i d) as [[Hid | Hid] | Hid].
    + assert (Hsd : sd = Z.of_nat d).
      { destruct (decide (S i = d)) as [E|E]; [apply Heq; exact E | apply Hlt; lia]. }
      destruct (is_char "." (String.get i p)) eqn:Hc; case_eqb;
        repeat split; intros; try lia.
    + subst d. rewrite (is_char_Some _ _ Hd). simpl.
      destruct (Hgt ltac:(lia)) as [-> ->].
      case_eqb; repeat split; intros; try lia.
    + rewrite (Hafter i Hid). destruct (Hgt ltac:(lia)) as [-> ->].
      case_eqb; repeat split; intros; try lia.
  - rewrite (lastIndexOf_None _ _ HL i). destruct Hdot as [-> ->].
    case_eqb; repeat split; intros; try lia.
Qed.

Lemma slice_in_range (s : string) (a b : Z) :
  0 <= a <= b -> b <= Z.of_nat (String.length s) ->
  slice s a b = String.substring (Z.to_nat a) (Z.to_nat (b - a)) s.
Proof.
  intros Ha Hb. unfold slice.
  destruct (Z.ltb_spec a 0); [lia|]. destruct (Z.ltb_spec b 0); [lia|].
  rewrite !Z.min_l by lia. reflexivity.
Qed.

Lemma ext_inv_init (p : string) :
  ext_inv p (String.length p) path.extname_init.
Proof.
  unfold ext_inv. simpl. repeat split; try lia.
  destruct (lastIndexOf "." p) as [d|] eqn:HL; [|split; reflexivity].
  destruct (lastIndexOf_Some _ _ _ HL) as [Hd _].
  apply get_Some_length in Hd. repeat split; intros; lia.
Qed.

Lemma two_dots (p : string) :
  String.length p = 2%nat ->
  is_char "." (String.get 0 p) = true ->
  String.get 1 p = Some "."%char ->
  p = "..".
Proof.
  destruct p as [|a [|b [|c r]]]; simpl; try discriminate.
  intros _ Ha Hb. apply Ascii.eqb_eq in Ha. congruence.
Qed.

Lemma extname_no_dir (p : string) :
  count_char "/" p = 0%nat -> path.extname p = extension_of p.
Proof.
  intros Hslash.
  destruct (String.eqb_spec p "..") as [-> | Hne]; [reflexivity|].
  pose proof (for_down_invariant (path.extname_body p) (ext_inv p)
                (String.length p)
                (fun i st Hi => extname_body_no_dir p i st Hslash Hi)
                path.extname_init (ext_inv_init p)) as Hinv.
  unfold path.extname, extension_of.
  destruct (for_down (path.extname_body p) (String.length p) path.extname_init)
    as [sd sp ee ms pd].
  unfold ext_inv in Hinv. simpl in Hinv.
  destruct Hinv as (-> & Hend1 & Hend2 & Hdot).
  apply String.eqb_neq in Hne. rewrite Hne.
  cbn [path.startDot path.startPart path.ext_end path.preDotState].
  destruct (lastIndexOf "." p) as [d|] eqn:HL.
  - destruct (lastIndexOf_Some _ _ _ HL) as [Hd _].
    pose proof (get_Some_length _ _ _ Hd) as Hdlen.
    destruct Hdot as (_ & Heq & Hlt).
    rewrite Hend2 by lia.
    rewrite (proj2 (Z.eqb_neq (Z.of_nat (String.length p)) (-1))) by lia.
    destruct d as [|d].
    + destruct (Heq eq_refl) as [-> ->]. reflexivity.
    + destruct (Hlt ltac:(lia)) as [-> ->].
      rewrite (proj2 (Z.eqb_neq (Z.of_nat (S d)) (-1))) by lia.
      assert (Hslice : slice p (Z.of_nat (S d)) (Z.of_nat (String.length p))
                       = String.substring (S d) (String.length p - S d) p).
      { rewrite slice_in_range by lia. f_equal; lia. }
      destruct (is_char "." (String.get 0 p)) eqn:H0.
      * change (1 =? 0) with false. change (1 =? 1) with true. cbn [orb andb].
        destruct (Z.eqb_spec (Z.of_nat (S d)) (Z.of_nat (String.length p) - 1));
          cbn [andb]; [|exact Hslice].
        destruct (Z.eqb_spec (Z.of_nat (S d)) (0 + 1)); [|exact Hslice].
        exfalso. apply String.eqb_neq in Hne. apply Hne.
        assert (d = 0%nat) by lia. subst d.
        apply two_dots; [lia | exact H0 | exact Hd].
      * change (-1 =? 0) with false. change (-1 =? 1) with false.
        cbn [orb andb]. exact Hslice.
  - destruct Hdot as [-> ->]. reflexivity.
Qed.

Ltac base_simpl :=
  cbn [path.start path.base_end path.base_matchedSlash path.extIdx
       path.firstNonSlashEnd path.set_start path.set_base_end
       path.set_base_matchedSlash path.set_extIdx path.set_firstNonSlashEnd].

Lemma same_code_refl (s : string) (i : nat) :
  (i < String.length s)%nat ->
  path.same_code (String.get i s) (String.get i s) = true.
Proof.
  intros Hi. destruct (String.get i s) as [c|] eqn:Hc.
  - simpl. apply Ascii.eqb_refl.
  - apply get_None_length in Hc. lia.
Qed.

Lemma basename_suffix_body_no_dir (p : string) (d i : nat) (st : path.base_state) :
  count_char "/" p = 0%nat ->
  (d < String.length p)%nat ->
  (i < String.length p)%nat ->
  base_inv p d (S i) st ->
  exists st',
    path.basename_suffix_body p
      (String.substring d (String.length p - d) p) i st = Continue st'
    /\ base_inv p d i st'.
Proof.
  intros Hslash Hd Hi Hinv.
  unfold path.basename_suffix_body, path.CHAR_FORWARD_SLASH, charCodeAt.
  rewrite (count_char_zero _ _ Hslash i).
  eexists; split; [reflexivity|].
  destruct st as [s e ms x f]. unfold base_inv in *.
  cbn [path.start path.base_end path.extIdx path.firstNonSlashEnd] in Hinv.
  destruct Hinv as (-> & Hf1 & Hf2 & Hgt & Hle).
  base_simpl.
  destruct (Z.eqb_spec f (-1)) as [Hf | Hf]; base_simpl.
  all: destruct (le_lt_dec (S i) d) as [Hid | Hid].
  all: try (destruct (Hle Hid) as [-> ->];
            change (0 <=? -1) with false; base_simpl;
            repeat split; intros; lia).
  all: destruct (Hgt Hid) as [-> ->].
  all: destruct (Z.leb_spec 0 (Z.of_nat (S i) - 1 - Z.of_nat d)); [|lia].
  all: rewrite (get_substring p d (String.length p - d)) by lia.
  all: replace (d + Z.to_nat (Z.of_nat (S i) - 1 - Z.of_nat d))%nat with i by lia.
  all: rewrite same_code_refl by lia; base_simpl.
  all: destruct (Z.eqb_spec (Z.of_nat (S i) - 1 - Z.of_nat d - 1) (-1));
         base_simpl; repeat split; intros; lia.
Qed.

Lemma base_inv_init (p : string) (d : nat) :
  (d < String.length p)%nat ->
  base_inv p d (String.length p)
    (path.basename_init (String.substring d (String.length p - d) p)).
Proof.
  intros Hd. unfold base_inv, path.basename_init. base_simpl.
  rewrite length_substring by lia. repeat split; intros; lia.
Qed.

Lemma basename_no_dir (p : string) (d : nat) :
  count_char "/" p = 0%nat ->
  (0 < d < String.length p)%nat ->
  path.basename p (String.substring d (String.length p - d) p)
  = String.substring 0 d p.
Proof.
  intros Hslash Hd.
  pose proof (for_down_invariant
                (path.basename_suffix_body p
                   (String.substring d (String.length p - d) p))
                (base_inv p d) (String.length p)
                (fun i st Hi =>
                   basename_suffix_body_no_dir p d i st Hslash
                     (proj2 Hd) Hi)
                _ (base_inv_init p d (proj2 Hd))) as Hinv.
  unfold path.basename. rewrite length_substring by lia.
  destruct (Nat.ltb_spec 0 (String.length p - d)); [|lia].
  destruct (Nat.leb_spec (String.length p - d) (String.length p)); [|lia].
  cbn [andb].
  destruct (String.eqb_spec (String.substring d (String.length p - d) p) p)
    as [Heq | _].
  { apply (f_equal String.length) in Heq.
    rewrite length_substring in Heq by lia. lia. }
  destruct (for_down _ _ _) as [s e ms x f].
  unfold base_inv in Hinv.
  cbn [path.start path.base_end path.extIdx path.firstNonSlashEnd] in Hinv.
  destruct Hinv as (-> & _ & _ & _ & Hle).
  destruct (Hle ltac:(lia)) as [-> ->]. base_simpl.
  destruct (Z.eqb_spec 0 (Z.of_nat d)); [lia|].
  destruct (Z.eqb_spec (Z.of_nat d) (-1)); [lia|].
  rewrite slice_in_range by lia. f_equal; lia.
Qed.

Lemma basename_plain_body_no_dir (p : string) (i : nat) (st : path.base_state) :
  count_char "/" p = 0%nat ->
  (i < String.length p)%nat ->
  plain_inv p (S i) st ->
  exists st', path.basename_plain_body p i st = Continue st' /\ plain_inv p i st'.
Proof.
  intros Hslash Hi Hinv.
  unfold path.basename_plain_body, path.CHAR_FORWARD_SLASH, charCodeAt.
  rewrite (count_char_zero _ _ Hslash i).
  destruct st as [s e ms x f]. unfold plain_inv in *.
  cbn [path.start path.base_end] in Hinv. destruct Hinv as (-> & He1 & He2).
  base_simpl.
  destruct (Z.eqb_spec e (-1)); eexists; (split; [reflexivity|]);
    base_simpl; repeat split; intros; lia.
Qed.

Lemma basename_no_suffix_no_dir (p : string) :
  count_char "/" p = 0%nat -> path.basename p EmptyString = p.
Proof.
  intros Hslash.
  assert (Hinit : plain_inv p (String.length p) (path.basename_init EmptyString)).
  { unfold plain_inv. simpl. repeat split; intros; lia. }
  pose proof (for_down_invariant (path.basename_plain_body p) (plain_inv p)
                (String.length p)
                (fun i st Hi => basename_plain_body_no_dir p i st Hslash Hi)
                _ Hinit) as Hinv.
  unfold path.basename. cbn [String.length Nat.ltb Nat.leb andb].
  destruct (for_down _ _ _) as [s e ms x f].
  unfold plain_inv in Hinv. cbn [path.start path.base_end] in Hinv.
  destruct Hinv as (-> & He1 & He2). base_simpl.
  destruct p as [|a r]; [rewrite He1 by reflexivity; reflexivity|].
  rewrite He2 by (simpl; lia).
  destruct (Z.eqb_spec (Z.of_nat (String.length (String a r))) (-1)); [lia|].
  rewrite slice_in_range by lia.
  rewrite Z.sub_0_r, Nat2Z.id. apply substring_full.
Qed.

Lemma append_empty_r (s : string) : s +:+ EmptyString = s.
Proof.
  induction s as [|a r IH]; [reflexivity|].
  rewrite append_String. by rewrite IH.
Qed.

Lemma basename_extname_no_dir (p : string) :
  count_char "/" p = 0%nat ->
  path.basename p (path.extname p) +:+ path.extname p = p.
Proof.
  intros Hslash. rewrite (extname_no_dir p Hslash). unfold extension_of.
  destruct (lastIndexOf "." p) as [[|d]|] eqn:HL;
    try (rewrite basename_no_suffix_no_dir by exact Hslash;
         apply append_empty_r).
  destruct (String.eqb_spec p "..") as [-> | Hne]; [reflexivity|].
  destruct (lastIndexOf_Some _ _ _ HL) as [Hd _].
  apply get_Some_length in Hd.
  rewrite basename_no_dir by (done || lia).
  apply substring_split. lia.
Qed.

(** The extension is empty or starts with its only dot. *)
Lemma extension_of_shape (p : string) :
  extension_of p = EmptyString
  \/ (String.get 0 (extension_of p) = Some "."%char
      /\ forall k, (0 < k)%nat ->
                   is_char "." (String.get k (extension_of p)) = false).
Proof.
  unfold extension_of.
  destruct (lastIndexOf "." p) as [[|d]|] eqn:HL; try (left; reflexivity).
  destruct (String.eqb p ".."); [left; reflexivity|]. right.
  destruct (lastIndexOf_Some _ _ _ HL) as [Hd Hafter].
  pose proof (get_Some_length _ _ _ Hd) as Hlen.
  split.
  - rewrite get_substring by lia. rewrite Nat.add_0_r. exact Hd.
  - intros k Hk.
    destruct (le_lt_dec (String.length p - S d) k) as [Hout | Hin].
    + assert (Hnone : String.get k
                        (String.substring (S d) (String.length p - S d) p)
                      = None).
      { apply get_None_length. rewrite length_substring by lia. exact Hout. }
      rewrite Hnone. reflexivity.
    + rewrite get_substring by lia. apply Hafter. lia.
Qed.

Lemma replace_colon_dot_length (s : string) :
  String.length (replace_colon_dot s) = String.length s.
Proof. induction s as [|a r IH]; simpl; [reflexivity | by rewrite IH]. Qed.

Lemma replace_colon_dot_get (s : string) : forall i,
  String.get i (replace_colon_dot s) = dash_colon_dot <$> String.get i s.
Proof.
  induction s as [|a r IH]; intros i; simpl; [reflexivity|].
  destruct i as [|i]; [reflexivity | apply IH].
Qed.

Lemma lastIndexOf_count_zero (c : ascii) (s : string) :
  lastIndexOf c s = None -> count_char c s = 0%nat.
Proof.
  induction s as [|a r IH]; simpl; [reflexivity|].
  destruct (lastIndexOf c r) as [j|]; [discriminate|].
  destruct (Ascii.eqb a c); [discriminate|]. intros _. by rewrite IH.
Qed.

Lemma count_two_lastIndexOf (c : ascii) (s : string) :
  (2 <= count_char c s)%nat -> exists d, lastIndexOf c s = Some (S d).
Proof.
  destruct s as [|a r]; simpl; [lia|]. intros Hc.
  destruct (lastIndexOf c r) as [j|] eqn:Hr; [by exists j|].
  apply lastIndexOf_count_zero in Hr. destruct (Ascii.eqb a c); lia.
Qed.


(** ** The filename allocator *)

Example filename_report :
  filename "2024-01-02T03:04:05.678Z" "report.json"
  = "report_2024-01-02T03-04-05-678Z.json".
Proof. reflexivity. Qed.

Example filename_dotfile :
  filename "2024-01-02T03:04:05.678Z" ".bashrc"
  = ".bashrc_2024-01-02T03-04-05-678Z".
Proof. reflexivity. Qed.

Example filename_trailing_dots :
  filename "2024-01-02T03:04:05.678Z" "a.."
  = "a._2024-01-02T03-04-05-678Z.".
Proof. reflexivity. Qed.

(** A directory part would be dropped; multer passes none. *)
Example filename_with_directory :
  filename "2024-01-02T03:04:05.678Z" "dir/a.txt"
  = "a_2024-01-02T03-04-05-678Z.txt".
Proof. reflexivity. Qed.

(** The name [".."] has no extension; multer never passes it. *)
Example filename_dotdot (iso : string) :
  filename iso ".." = ".._" +:+ replace_colon_dot iso.
Proof. unfold filename. simpl. by rewrite append_empty_r. Qed.

(** Without a directory part, [basename] leaves the front of the name. *)
Lemma basename_is_the_front (p : string) :
  count_char "/" p = 0%nat ->
  path.basename p (path.extname p)
  = String.substring 0 (String.length p - String.length (path.extname p)) p.
Proof.
  intros Hslash. rewrite (extname_no_dir p Hslash). unfold extension_of.
  destruct (lastIndexOf "." p) as [[|d]|] eqn:HL;
    try (rewrite basename_no_suffix_no_dir by exact Hslash;
         cbn [String.length]; rewrite Nat.sub_0_r; symmetry;
         apply substring_full).
  destruct (String.eqb_spec p "..") as [-> | Hne]; [reflexivity|].
  destruct (lastIndexOf_Some _ _ _ HL) as [Hd _].
  apply get_Some_length in Hd.
  rewrite basename_no_dir by (done || lia).
  rewrite length_substring by lia. f_equal. lia.
Qed.

(** C1. For an original name without directory part (multer passes no
    other), the allocated name is [base_timestamp ext]: [ext] is the
    extension of the original name, that is, the part from its last dot on
    (nothing when the name has no dot, when its last dot is its first
    character, or when it is [".."]), so empty or starting with its only
    dot; [base] is the original name without it; and [timestamp] is the ISO
    string of the instant with each [:] and [.] replaced by [-]. *)
Theorem filename_form (iso originalname : string) :
  count_char "/" originalname = 0%nat ->
  exists base ext timestamp : string,
    filename iso originalname = base +:+ "_" +:+ timestamp +:+ ext
    /\ ext = path.extname originalname
    /\ ext = match lastIndexOf "." originalname with
             | Some (S d) =>
                 if String.eqb originalname ".." then EmptyString
                 else String.substring (S d)
                        (String.length originalname - S d) originalname
             | _ => EmptyString
             end
    /\ base = String.substring 0
                (String.length originalname - String.length ext) originalname
    /\ base +:+ ext = originalname
    /\ (ext = EmptyString
        \/ (String.get 0 ext = Some "."%char
            /\ forall k, (0 < k)%nat -> String.get k ext <> Some "."%char))
    /\ String.length timestamp = String.length iso
    /\ forall i,
         String.get i timestamp
         = (fun c => if Ascii.eqb c ":" || Ascii.eqb c "." then "-"%char else c)
             <$> String.get i iso.
Proof.
  intros Hslash.
  exists (path.basename originalname (path.extname originalname)),
         (path.extname originalname), (replace_colon_dot iso).
  split; [reflexivity|]. split; [reflexivity|].
  split; [exact (extname_no_dir originalname Hslash)|].
  split; [exact (basename_is_the_front originalname Hslash)|].
  split; [exact (basename_extname_no_dir originalname Hslash)|].
  split; [|split; [apply replace_colon_dot_length | apply replace_colon_dot_get]].
  rewrite (extname_no_dir originalname Hslash).
  destruct (extension_of_shape originalname) as [E | [H0 Hk]]; [by left|].
  right. split; [exact H0|]. intros k Hpos Hget.
  specialize (Hk k Hpos). rewrite Hget in Hk. discriminate.
Qed.

Lemma filename_form_witness :
  exists base ext timestamp : string,
    filename "2024-01-02T03:04:05.678Z" "report.json"
    = base +:+ "_" +:+ timestamp +:+ ext
    /\ ext = ".json"
    /\ base +:+ ext = "report.json".
Proof.
  destruct (filename_form "2024-01-02T03:04:05.678Z" "report.json" eq_refl)
    as (base & ext & timestamp & Hname & _ & Hext & _ & Hsplit & _).
  exists base, ext, timestamp.
  split; [exact Hname | split; [exact Hext | exact Hsplit]].
Defined.

(** C10. For an original name with more than one dot (without directory
    part and other than [".."], as multer passes them), what follows the
    timestamp is the part from the last dot on, and everything before that
    dot, earlier dots included, stays in front of the timestamp. *)
Theorem filename_keeps_inner_dots (iso originalname : string) :
  count_char "/" originalname = 0%nat ->
  originalname <> ".." ->
  (2 <= count_char "." originalname)%nat ->
  exists d : nat,
    lastIndexOf "." originalname = Some d
    /\ filename iso originalname
       = String.substring 0 d originalname
         +:+ "_" +:+ replace_colon_dot iso
         +:+ String.substring d (String.length originalname - d) originalname.
Proof.
  intros Hslash Hne Hdots.
  destruct (count_two_lastIndexOf _ _ Hdots) as [d HL]. exists (S d).
  split; [exact HL|].
  destruct (lastIndexOf_Some _ _ _ HL) as [Hd _].
  apply get_Some_length in Hd.
  unfold filename. rewrite (extname_no_dir originalname Hslash).
  unfold extension_of. rewrite HL.
  apply String.eqb_neq in Hne. rewrite Hne.
  rewrite basename_no_dir by (done || lia). reflexivity.
Qed.

Lemma filename_keeps_inner_dots_witness :
  exists d : nat,
    lastIndexOf "." "a.tar.gz" = Some d
    /\ filename "2024-01-02T03:04:05.678Z" "a.tar.gz"
       = String.substring 0 d "a.tar.gz"
         +:+ "_" +:+ replace_colon_dot "2024-01-02T03:04:05.678Z"
         +:+ String.substring d (String.length "a.tar.gz" - d) "a.tar.gz".
Proof.
  apply (filename_keeps_inner_dots "2024-01-02T03:04:05.678Z" "a.tar.gz").
  - reflexivity.
  - discriminate.
  - simpl. lia.
Defined.

(** The name [a.tar.gz], at every instant. *)
Example filename_tar_gz (iso : string) :
  filename iso "a.tar.gz" = "a.tar_" +:+ replace_colon_dot iso +:+ ".gz"
  /\ filename iso "a.tar.gz" <> "a_" +:+ replace_colon_dot iso +:+ ".tar.gz".
Proof.
  split; [reflexivity|]. intros Heq.
  change (filename iso "a.tar.gz")
    with ("a.tar_" +:+ replace_colon_dot iso +:+ ".gz") in Heq.
  discriminate Heq.
Qed.

(** ** The effect monad *)

Lemma bind_pair {A B} (t : list event) (a : A) (k : A -> M B) :
  bind (t, a) k = (t ++ trace (k a), value (k a)).
Proof. unfold bind, trace, value. destruct (k a) as [t2 b]; reflexivity. Qed.

(** ** [POST /upload] *)

(** The branch taken for any error whose code is [LIMIT_FILE_SIZE]. *)
Lemma post_upload_file_too_large (w : World) (e : JsError) (req : Request) :
  err_code e = Some "LIMIT_FILE_SIZE"%string ->
  value (post_upload w (Some e) req)
  = respond 413
      [("success", JBool false);
       ("error", JStr "File too large");
       ("details",
        JStr ("File size exceeds the limit of "
              +:+ JsNumber.to_string
                    (JsNumber.Math_round
                       (JsNumber.div
                          (JsNumber.div (JsNumber.of_prop (err_limit e)) 1024)
                          1024))
              +:+ "MB"));
       ("maxSize", JStr "1GB")]%string.
Proof.
  intros Hcode. unfold post_upload. rewrite Hcode. reflexivity.
Qed.

(** The branch taken for every other error. *)
Lemma post_upload_other_error (w : World) (e : JsError) (req : Request) :
  err_code e <> Some "LIMIT_FILE_SIZE"%string ->
  value (post_upload w (Some e) req)
  = respond 400
      [("success", JBool false);
       ("error", JStr "Upload error");
       ("details", JStr (err_message e))]%string.
Proof.
  intros Hcode. unfold post_upload.
  destruct (err_code e) as [c|] eqn:Hc; [|reflexivity].
  destruct (String.eqb c "LIMIT_FILE_SIZE") eqn:Heq; [|reflexivity].
  apply String.eqb_eq in Heq. congruence.
Qed.

Lemma multer_file_verdict_over (field : string) (bytes : Z) :
  fileSize upload_limits < bytes ->
  multer_file_verdict field bytes = Some (MulterError "LIMIT_FILE_SIZE" field).
Proof.
  intros H. unfold multer_file_verdict.
  apply Z.ltb_lt in H. rewrite H. reflexivity.
Qed.

Lemma multer_field_verdict_over (field : string) (bytes : Z) :
  fieldSize upload_limits < bytes ->
  multer_field_verdict field bytes = Some (MulterError "LIMIT_FIELD_VALUE" field).
Proof.
  intros H. unfold multer_field_verdict.
  apply Z.ltb_lt in H. rewrite H. reflexivity.
Qed.

(** Had the error carried the configured limit, the message would name it. *)
Example details_with_limit (w : World) (req : Request) :
  value (post_upload w
           (Some {| err_code := Some "LIMIT_FILE_SIZE"%string;
                    err_message := "File too large";
                    err_field := Some "file"%string;
                    err_limit := Some (fileSize upload_limits) |}) req)
  = respond 413
      [("success", JBool false);
       ("error", JStr "File too large");
       ("details", JStr "File size exceeds the limit of 10000MB");
       ("maxSize", JStr "1GB")]%string.
Proof. reflexivity. Qed.

(** C2. An upload whose file is larger than the configured [fileSize] is
    answered with status 413 and [success: false], but multer's error has no
    [limit] property, so the details message reads "NaNMB" instead of naming
    the configured limit in MB. Evaluated for a file one byte over the
    limit. *)
Theorem oversized_file_details_lack_limit (w : World) (req : Request) :
  multer_file_verdict "file" (fileSize upload_limits + 1)
  = Some (MulterError "LIMIT_FILE_SIZE" "file")
  /\ err_limit (MulterError "LIMIT_FILE_SIZE" "file") = None
  /\ value (post_upload w
              (multer_file_verdict "file" (fileSize upload_limits + 1)) req)
     = respond 413
         [("success", JBool false);
          ("error", JStr "File too large");
          ("details", JStr "File size exceeds the limit of NaNMB");
          ("maxSize", JStr "1GB")]%string.
Proof. repeat split. Qed.



(** C6 (as stated, refuted). A form field one byte over the 50 MiB
    [fieldSize] limit is answered with status 400, not 413. *)
Lemma oversized_field_is_not_413 :
  fieldSize upload_limits < 50 * 1024 * 1024 + 1
  /\ status (value (post_upload bare_world
                      (multer_field_verdict "path" (50 * 1024 * 1024 + 1))
                      no_file_request)) = 400
  /\ status (value (post_upload bare_world
                      (multer_field_verdict "path" (50 * 1024 * 1024 + 1))
                      no_file_request)) <> 413.
Proof. repeat split. discriminate. Qed.

(** C6 (amended). A form field whose value exceeds the 50 MiB [fieldSize]
    limit is answered with status 400, [success: false], the error
    "Upload error" and multer's message "Field value too long" as details:
    only the file-size limit is mapped to 413. *)
Theorem oversized_field_is_upload_error
    (w : World) (req : Request) (field : string) (bytes : Z) :
  fieldSize upload_limits < bytes ->
  value (post_upload w (multer_field_verdict field bytes) req)
  = respond 400
      [("success", JBool false);
       ("error", JStr "Upload error");
       ("details", JStr "Field value too long")]%string.
Proof.
  intros Hover. rewrite (multer_field_verdict_over field bytes Hover).
  rewrite post_upload_other_error; [reflexivity | discriminate].
Qed.

Lemma oversized_field_is_upload_error_witness :
  value (post_upload bare_world
           (multer_field_verdict "path" (50 * 1024 * 1024 + 1)) no_file_request)
  = respond 400
      [("success", JBool false);
       ("error", JStr "Upload error");
       ("details", JStr "Field value too long")]%string.
Proof.
  apply (oversized_field_is_upload_error bare_world no_file_request "path"
           (50 * 1024 * 1024 + 1)).
  reflexivity.
Defined.

(** C8. Every 413 answer to a file over the limit carries
    [maxSize: "1GB"], whatever the limit (10000 MB as configured); but the
    details message beside it does not report that limit: multer's error has
    no [limit] property and the message reads "NaNMB" (the defect of C2). *)
Theorem oversized_file_maxSize_beside_missing_limit
    (w : World) (req : Request) (field : string) (bytes : Z) :
  fileSize upload_limits < bytes ->
  let answer := value (post_upload w (multer_file_verdict field bytes) req) in
  status answer = 413
  /\ prop (body answer) "maxSize" = Some (JStr "1GB")
  /\ prop (body answer) "details"
     = Some (JStr "File size exceeds the limit of NaNMB")
  /\ prop (body answer) "details"
     <> Some (JStr "File size exceeds the limit of 10000MB").
Proof.
  intros Hover. cbv zeta. rewrite (multer_file_verdict_over field bytes Hover).
  rewrite (post_upload_file_too_large w (MulterError "LIMIT_FILE_SIZE" field)
             req eq_refl).
  repeat split. discriminate.
Qed.

Lemma oversized_file_maxSize_beside_missing_limit_witness :
  prop (body (value (post_upload bare_world
                       (multer_file_verdict "file" (10000 * 1024 * 1024 + 1))
                       no_file_request))) "maxSize"
  = Some (JStr "1GB")
  /\ prop (body (value (post_upload bare_world
                          (multer_file_verdict "file" (10000 * 1024 * 1024 + 1))
                          no_file_request))) "details"
     = Some (JStr "File size exceeds the limit of NaNMB").
Proof.
  destruct (oversized_file_maxSize_beside_missing_limit bare_world
              no_file_request "file" (10000 * 1024 * 1024 + 1))
    as (_ & Hmax & Hdetails & _); [reflexivity|].
  split; [exact Hmax | exact Hdetails].
Defined.

(** The answer to a successful upload. *)
Lemma post_upload_success (w : World) (f : File.t) (fields : list (string * json)) :
  value (post_upload w None {| req_file := Some f; req_body := Some fields |})
  = respond 200
      [("success", JBool true);
       ("message", JStr "File uploaded successfully");
       ("file", fileInfo w f fields)]%string.
Proof.
  unfold post_upload, value, bind, emit; simpl.
  destruct (log_preview w f) as [t u]. reflexivity.
Qed.

(** C9. When the [path] form field of a successful upload is the empty
    string, the [path] of the answer's file record is the original filename,
    exactly as when the field is absent. *)
Theorem empty_path_field_is_ignored
    (w : World) (f : File.t) (fields : list (string * json)) :
  get_prop fields "path" = Some (JStr EmptyString) ->
  value (post_upload w None {| req_file := Some f; req_body := Some fields |})
  = respond 200
      [("success", JBool true);
       ("message", JStr "File uploaded successfully");
       ("file",
        JObj [("originalName", JStr (File.originalname f));
              ("savedAs", JStr (File.filename f));
              ("size", JNum (File.size f));
              ("mimeType", JStr (File.mimetype f));
              ("path", JStr (File.originalname f));
              ("uploadTime", JStr (now w));
              ("savedPath", JStr (File.path f))])]%string
  /\ forall fields' : list (string * json),
       get_prop fields' "path" = None ->
       value (post_upload w None
                {| req_file := Some f; req_body := Some fields' |})
       = value (post_upload w None
                  {| req_file := Some f; req_body := Some fields |}).
Proof.
  intros Hpath. split.
  - rewrite post_upload_success. unfold fileInfo. rewrite Hpath. reflexivity.
  - intros fields' Habsent. rewrite !post_upload_success.
    unfold fileInfo. rewrite Hpath, Habsent. reflexivity.
Qed.

Lemma empty_path_field_is_ignored_witness :
  prop (body (value (post_upload bare_world None
                       {| req_file := Some report_file;
                          req_body := Some [("path", JStr EmptyString)]%string |})))
       "file"
  = Some (JObj [("originalName", JStr "report.json");
                ("savedAs", JStr "report_2024-01-02T03-04-05-600Z.json");
                ("size", JNum 7);
                ("mimeType", JStr "application/json");
                ("path", JStr "report.json");
                ("uploadTime", JStr "2024-01-02T03:04:05.678Z");
                ("savedPath",
                 JStr "/srv/app/uploads/report_2024-01-02T03-04-05-600Z.json")]%string).
Proof.
  destruct (empty_path_field_is_ignored bare_world report_file
              [("path", JStr EmptyString)]%string) as [Hresp _]; [reflexivity|].
  rewrite Hresp. reflexivity.
Defined.

(** A successful upload of a short JSON file: the preview is read back and
    logged, the answer carries the record. *)
Example upload_with_preview :
  post_upload
    {| now := "2024-01-02T03:04:05.678Z";
       fs_readFile := fun _ => Ok "[1, 2, 3]";
       fs_readdir := fun _ => Ok [];
       fs_stat := fun p => Err (ENOENT "stat" p);
       https_createServer := fun key cert => Ok (HttpsServer key cert) |}
    None {| req_file := Some report_file; req_body := Some [] |}
  = ([console_log [AStr "📤 Receiving file: report.json (0KB)"];
      console_log [AStr "📁 File uploaded:";
                   AJson (fileInfo bare_world report_file [])];
      fs_call op_readFile "/srv/app/uploads/report_2024-01-02T03-04-05-600Z.json";
      console_log [AStr "📄 File preview:"; AStr "[1, 2, 3]"]],
     respond 200
       [("success", JBool true);
        ("message", JStr "File uploaded successfully");
        ("file", fileInfo bare_world report_file [])]%string).
Proof. reflexivity. Qed.

(** A non-empty [path] field is kept. *)
Example declared_path_is_kept :
  prop (fileInfo bare_world report_file [("path", JStr "docs/report.json")]%string)
       "path"
  = Some (JStr "docs/report.json").
Proof. reflexivity. Qed.

(** ** [GET /health] *)

(** C7. In every environment, whatever happened before, the health handler
    answers 200 with [success: true], the message "Server is running", the
    current time and the uploads directory; it has no other outcome and no
    other effect. *)
Theorem health_always_ok
    (dirname : string) (path_join : string -> string -> string) (w : World) :
  get_health dirname path_join w
  = ([], {| status := 200;
            body := JObj [("success", JBool true);
                          ("message", JStr "Server is running");
                          ("timestamp", JStr (now w));
                          ("uploadsDirectory",
                           JStr (path_join dirname "uploads"))]%string |}).
Proof. reflexivity. Qed.

(** ** Start-up *)




(** Without the key the certificate is not even read. *)
Example startup_without_key :
  startHttpsServer bare_world
  = ([fs_call op_readFile "./private.key";
      console_error [AStr "Error starting HTTPS server:";
                     AErr (ENOENT "open" "./private.key")];
      console_error
        [AStr "Make sure public.cert and private.key files exist in the same directory"];
      process_exit 1],
     None).
Proof. reflexivity. Qed.

(** With both files readable and usable the server listens on [PORT]; the
    start line is logged by the callback, after the run. *)
Example startup_with_tls_material :
  trace (startHttpsServer
           {| now := EmptyString;
              fs_readFile := fun p => Ok p;
              fs_readdir := fun _ => Ok [];
              fs_stat := fun p => Err (ENOENT "stat" p);
              https_createServer := fun key cert => Ok (HttpsServer key cert) |})
  = [fs_call op_readFile "./private.key";
     fs_call op_readFile "./public.crt";
     listen Tls 3443]
  /\ on_listening
     = ([console_log [AStr "� HTTPS Server running at https://localhost:3443"]],
        tt).
Proof. split; reflexivity. Qed.

(** ** [Promise.all] and [GET /files] *)

Section PromiseFacts.
Context {A : Type}.
Local Open Scope nat_scope.

(** While all promises fulfil, and the rest of the schedule names each
    index that is still open exactly once, the values end up in the order
    of the promises. *)
Lemma Promise_all_settle_fulfilled (vs : list A) (sched : list nat) :
  forall values : list (option A),
    sched <> [] ->
    NoDup sched ->
    (forall i, i ∈ sched -> i < length vs) ->
    length values = length vs ->
    (forall i v, vs !! i = Some v -> i ∉ sched -> values !! i = Some (Some v)) ->
    Promise_all_settle (Ok <$> vs) sched values (length sched)
    = Some (Ok (Some <$> vs)).
Proof.
  induction sched as [|i rest IH]; intros values Hne Hnd Hlt Hlen Hfilled;
    [congruence|].
  apply NoDup_cons in Hnd as [Hi Hnd].
  assert (Hilt : i < length vs) by (apply Hlt; left).
  destruct (lookup_lt_is_Some_2 vs i Hilt) as [v Hv].
  simpl. rewrite list_lookup_fmap, Hv. simpl.
  rewrite Nat.sub_0_r.
  assert (Hfilled' : forall j u, vs !! j = Some u -> j ∉ rest ->
                                 <[i:=Some v]> values !! j = Some (Some u)).
  { intros j u Hu Hj. destruct (decide (i = j)) as [<-|Hij].
    - rewrite list_lookup_insert_eq by lia. congruence.
    - rewrite list_lookup_insert_ne by done. apply Hfilled; [done|].
      intros Hin. apply elem_of_cons in Hin as [->|Hin]; done. }
  destruct rest as [|i' rest'].
  - simpl. do 2 f_equal. apply list_eq. intros j.
    rewrite list_lookup_fmap.
    destruct (vs !! j) as [u|] eqn:Hu; simpl.
    + apply Hfilled'; [done|]. apply not_elem_of_nil.
    + apply lookup_ge_None. rewrite length_insert.
      apply lookup_ge_None in Hu. lia.
  - change (length (i' :: rest') =? 0) with false. cbv iota.
    apply IH; [done | done | | by rewrite length_insert | done].
    intros j Hj. apply Hlt. by right.
Qed.

(** [Promise.all] of fulfilled promises yields their values in the order
    of the promises, in whatever order they settle. *)
Lemma Promise_all_fulfilled (vs : list A) (sched : list nat) :
  sched ≡ₚ seq 0 (length vs) ->
  Promise_all (Ok <$> vs) sched = Some (Ok (Some <$> vs)).
Proof.
  intros Hperm. unfold Promise_all. rewrite length_fmap.
  destruct (length vs =? 0) eqn:Hz.
  - apply Nat.eqb_eq in Hz. destruct vs; [reflexivity | discriminate].
  - apply Nat.eqb_neq in Hz.
    assert (Hlen : length sched = length vs).
    { rewrite (Permutation_length Hperm). apply length_seq. }
    rewrite <- Hlen at 2.
    apply Promise_all_settle_fulfilled.
    + intros ->. simpl in Hlen. lia.
    + rewrite Hperm. apply NoDup_seq.
    + intros i Hi. rewrite Hperm in Hi. apply elem_of_seq in Hi. lia.
    + apply length_replicate.
    + intros i v Hv Hi. exfalso. apply Hi. rewrite Hperm.
      apply elem_of_seq. apply lookup_lt_Some in Hv. lia.
Qed.

End PromiseFacts.

(** The promises built by [files.map] when every [fs.stat] succeeds: one
    call per entry, issued in the order of the entries. *)
Lemma file_details_fulfilled
    (dirname : string) (path_join : string -> string -> string) (w : World)
    (files : list string) (stats : list Stats.t) :
  Forall2 (fun filename st =>
             fs_stat w (path_join (uploadsDir dirname path_join) filename) = Ok st)
          files stats ->
  map_M (file_details dirname path_join w) files
  = (map (fun filename =>
            fs_call op_stat (path_join (uploadsDir dirname path_join) filename))
         files,
     Ok <$> zip_with
              (fun filename st =>
                 JObj [("name", JStr filename);
                       ("size", JNum (Stats.size st));
                       ("modified", JStr (Stats.mtime st));
                       ("path",
                        JStr (path_join (uploadsDir dirname path_join) filename))]%string)
              files stats).
Proof.
  induction 1 as [|filename st files stats Hstat _ IH]; [reflexivity|].
  cbn [map_M]. rewrite IH. unfold file_details, stat. cbn [emit bind ret].
  rewrite Hstat. cbn. rewrite app_nil_r. reflexivity.
Qed.

(** C4 (as stated, refuted). The uploads directory can be read and has one
    entry, but the entry cannot be statted (a dangling symbolic link): the
    answer is 500, not a successful listing. *)
Lemma get_files_fails_on_unstattable_entry :
  fs_readdir dangling_link_world (uploadsDir "/srv/app" plain_join)
  = Ok ["ghost.txt"%string]
  /\ get_files "/srv/app" plain_join dangling_link_world [0%nat]
     = ([fs_call op_readdir "/srv/app/uploads";
         fs_call op_stat "/srv/app/uploads/ghost.txt";
         console_error
           [AStr "❌ Error listing files:";
            AErr (ENOENT "stat" "/srv/app/uploads/ghost.txt")]],
        Some (respond 500
                [("success", JBool false);
                 ("error", JStr "Could not list files");
                 ("details",
                  JStr "ENOENT: no such file or directory, stat '/srv/app/uploads/ghost.txt'")]%string)).
Proof. split; reflexivity. Qed.

(** C4 (amended). When the uploads directory can be read and every one of
    its N entries can be statted, the listing answers [success: true] with
    exactly N records, one per entry and in the order of [readdir], each
    with the entry's name and the size and modification time of its stat;
    the order in which the stat calls complete does not matter. *)
Theorem get_files_lists_every_entry
    (dirname : string) (path_join : string -> string -> string) (w : World)
    (files : list string) (stats : list Stats.t) (sched : list nat) :
  fs_readdir w (uploadsDir dirname path_join) = Ok files ->
  Forall2 (fun filename st =>
             fs_stat w (path_join (uploadsDir dirname path_join) filename) = Ok st)
          files stats ->
  sched ≡ₚ seq 0 (length files) ->
  let fileDetails :=
    zip_with
      (fun filename st =>
         JObj [("name", JStr filename);
               ("size", JNum (Stats.size st));
               ("modified", JStr (Stats.mtime st));
               ("path",
                JStr (path_join (uploadsDir dirname path_join) filename))]%string)
      files stats in
  value (get_files dirname path_join w sched)
  = Some (respond 200 [("success", JBool true);
                       ("files", JArr fileDetails)]%string)
  /\ length fileDetails = length files
  /\ trace (get_files dirname path_join w sched)
     = fs_call op_readdir (uploadsDir dirname path_join)
       :: map (fun filename =>
                 fs_call op_stat
                   (path_join (uploadsDir dirname path_join) filename))
              files.
Proof.
  intros Hdir Hstats Hsched fileDetails.
  assert (Hlen : length fileDetails = length files).
  { unfold fileDetails. rewrite length_zip_with.
    apply Forall2_length in Hstats. lia. }
  assert (Hholes : forall ds : list json,
            map (default JNull) (Some <$> ds) = ds).
  { induction ds as [|d ds IH]; [reflexivity|]. simpl. f_equal. apply IH. }
  assert (Hrun : get_files dirname path_join w sched
                 = (fs_call op_readdir (uploadsDir dirname path_join)
                    :: map (fun filename =>
                              fs_call op_stat
                                (path_join (uploadsDir dirname path_join) filename))
                           files,
                    Some (respond 200 [("success", JBool true);
                                       ("files", JArr fileDetails)]%string))).
  { unfold get_files, readdir, emit, ret.
    rewrite !bind_pair. cbn [trace value fst snd]. rewrite Hdir.
    rewrite (file_details_fulfilled dirname path_join w files stats Hstats).
    fold fileDetails. rewrite !bind_pair. cbn [trace value fst snd].
    rewrite Promise_all_fulfilled by (rewrite Hlen; exact Hsched).
    rewrite Hholes. cbn [fst snd]. rewrite !app_nil_r. reflexivity. }
  rewrite Hrun. repeat split. exact Hlen.
Qed.

Lemma get_files_lists_every_entry_witness :
  value (get_files "/srv/app" plain_join two_files_world [1; 0]%nat)
  = Some (respond 200
            [("success", JBool true);
             ("files",
              JArr [JObj [("name", JStr "b.txt");
                          ("size", JNum 1024);
                          ("modified", JStr "2024-01-01T00:00:01.000Z");
                          ("path", JStr "/srv/app/uploads/b.txt")];
                    JObj [("name", JStr "a.txt");
                          ("size", JNum 8);
                          ("modified", JStr "2024-01-01T00:00:00.000Z");
                          ("path", JStr "/srv/app/uploads/a.txt")]])]%string).
Proof.
  refine (proj1 (get_files_lists_every_entry "/srv/app" plain_join
                   two_files_world ["b.txt"; "a.txt"]%string
                   [ {| Stats.size := 1024; Stats.mtime := "2024-01-01T00:00:01.000Z" |};
                     {| Stats.size := 8; Stats.mtime := "2024-01-01T00:00:00.000Z" |} ]
                   [1; 0]%nat _ _ _)).
  - reflexivity.
  - repeat constructor.
  - apply Permutation_swap.
Defined.

(** While a stat call has not completed the handler has not answered. *)
Example get_files_pending :
  value (get_files "/srv/app" plain_join two_files_world [1]%nat) = None.
Proof. reflexivity. Qed.

(** An unreadable uploads directory is answered with 500. *)
Example get_files_unreadable_directory :
  get_files "/srv/app" plain_join
    {| now := EmptyString;
       fs_readFile := fun p => Err (ENOENT "open" p);
       fs_readdir := fun p => Err (ENOENT "scandir" p);
       fs_stat := fun p => Err (ENOENT "stat" p);
       https_createServer := fun key cert => Ok (HttpsServer key cert) |}
    []
  = ([fs_call op_readdir "/srv/app/uploads";
      console_error [AStr "❌ Error listing files:";
                     AErr (ENOENT "scandir" "/srv/app/uploads")]],
     Some (respond 500
             [("success", JBool false);
              ("error", JStr "Could not list files");
              ("details",
               JStr "ENOENT: no such file or directory, scandir '/srv/app/uploads'")]%string)).
Proof. reflexivity. Qed.

(** * Further properties *)

(** ** More on [POST /upload] *)

Lemma post_upload_error_run (w : World) (e : JsError) (req : Request) :
  exists r : Response,
    post_upload w (Some e) req
    = ([console_error [AStr "❌ Multer error:"; AErr e]], r).
Proof.
  unfold post_upload.
  destruct (match err_code e with
            | Some c => String.eqb c "LIMIT_FILE_SIZE"
            | None => false
            end); eexists; reflexivity.
Qed.

(** X1. Whatever multer reports, the answer is either 200 with
    [success: true] and no [error] field, or 400, 413 or 500 with
    [success: false] and an [error] string. *)
Theorem post_upload_envelope (w : World) (err : option JsError) (req : Request) :
  let r := value (post_upload w err req) in
  (status r = 200
   /\ prop (body r) "success" = Some (JBool true)
   /\ prop (body r) "error" = None)
  \/ ((status r = 400 \/ status r = 413 \/ status r = 500)
      /\ prop (body r) "success" = Some (JBool false)
      /\ exists code : string, prop (body r) "error" = Some (JStr code)).
Proof.
  destruct err as [e|].
  - right. unfold post_upload.
    destruct (match err_code e with
              | Some c => String.eqb c "LIMIT_FILE_SIZE"
              | None => false
              end); cbn; (split; [tauto|]); split; try reflexivity;
      eexists; reflexivity.
  - destruct req as [[f|] [fields|]].
    + left. cbv zeta. rewrite post_upload_success. repeat split.
    + right. cbn. split; [tauto|]. split; [reflexivity|]. eexists; reflexivity.
    + right. cbn. split; [tauto|]. split; [reflexivity|]. eexists; reflexivity.
    + right. cbn. split; [tauto|]. split; [reflexivity|]. eexists; reflexivity.
Qed.

(** X2. The answer to an upload depends on the clock only, not on what the
    file system answers: a preview that cannot be read changes the log, never
    the response. *)
Theorem post_upload_answer_ignores_filesystem
    (w w' : World) (err : option JsError) (req : Request) :
  now w = now w' ->
  value (post_upload w err req) = value (post_upload w' err req).
Proof.
  intros Hnow. destruct err as [e|]; [reflexivity|].
  destruct req as [[f|] [fields|]]; try reflexivity.
  rewrite !post_upload_success. unfold fileInfo. rewrite Hnow. reflexivity.
Qed.

Lemma post_upload_answer_ignores_filesystem_witness :
  value (post_upload bare_world None
           {| req_file := Some report_file; req_body := Some [] |})
  = value (post_upload readable_world None
             {| req_file := Some report_file; req_body := Some [] |}).
Proof.
  apply (post_upload_answer_ignores_filesystem bare_world readable_world).
  reflexivity.
Defined.

Lemma length_append (s t : string) :
  String.length (s +:+ t) = (String.length s + String.length t)%nat.
Proof.
  induction s as [|a r IH]; [reflexivity|].
  rewrite append_String. simpl. by rewrite IH.
Qed.

Lemma length_substring_le (n : nat) : forall (s : string) (d : nat),
  (String.length (String.substring d n s) <= n)%nat.
Proof.
  induction n as [|n IH]; intros s d.
  - induction s as [|a r IHs] in d |- *; [destruct d; simpl; lia|].
    destruct d as [|d]; simpl; [lia | apply IHs].
  - induction s as [|a r IHs] in d |- *; [destruct d; simpl; lia|].
    destruct d as [|d]; simpl; [specialize (IH r 0%nat); lia | apply IHs].
Qed.

(** What the preview step does: nothing, or one read of the saved file
    followed by one log line. *)
Lemma log_preview_run (w : World) (f : File.t) :
  log_preview w f = ([], tt)
  \/ (exists content : string,
        fs_readFile w (File.path f) = Ok content
        /\ log_preview w f
           = ([fs_call op_readFile (File.path f);
               console_log
                 [AStr "📄 File preview:";
                  AStr (if (500 <? String.length content)%nat
                        then substring0 content 500 +:+ "..."
                        else content)]], tt))
  \/ (exists readError : JsError,
        fs_readFile w (File.path f) = Err readError
        /\ log_preview w f
           = ([fs_call op_readFile (File.path f);
               console_log [AStr "❌ Could not read file content:";
                            AStr (err_message readError)]], tt)).
Proof.
  unfold log_preview, readFile.
  destruct (startsWith (File.mimetype f) "text/"
            || endsWith (File.originalname f) ".json"
            || endsWith (File.originalname f) ".js"
            || endsWith (File.originalname f) ".html"
            || endsWith (File.originalname f) ".css"); [|by left].
  right. destruct (fs_readFile w (File.path f)) as [content | readError].
  - left. exists content. split; reflexivity.
  - right. exists readError. split; reflexivity.
Qed.

Lemma post_upload_success_trace (w : World) (f : File.t)
    (fields : list (string * json)) :
  trace (post_upload w None {| req_file := Some f; req_body := Some fields |})
  = [console_log
       [AStr ("📤 Receiving file: " +:+ File.originalname f +:+ " ("
              +:+ JsNumber.to_string
                    (JsNumber.Math_round
                       (JsNumber.div (JsNumber.of_prop (Some (File.size f)))
                          1024))
              +:+ "KB)")];
     console_log [AStr "📁 File uploaded:"; AJson (fileInfo w f fields)]]
    ++ trace (log_preview w f).
Proof.
  unfold post_upload, trace, bind, emit, ret; cbn.
  destruct (log_preview w f) as [t u]. cbn. by rewrite app_nil_r.
Qed.

(** X3. A logged preview has at most 503 characters; it comes from reading
    the saved file, and a file of at most 500 characters is logged whole. *)
Theorem preview_is_bounded
    (w : World) (err : option JsError) (req : Request) (s : string) :
  In (console_log [AStr "📄 File preview:"; AStr s])
     (trace (post_upload w err req)) ->
  (String.length s <= 503)%nat
  /\ exists (f : File.t) (content : string),
       req_file req = Some f
       /\ fs_readFile w (File.path f) = Ok content
       /\ ((String.length content <= 500)%nat -> s = content).
Proof.
  intros Hin. destruct err as [e|].
  { destruct (post_upload_error_run w e req) as [r Hrun].
    rewrite Hrun in Hin. cbn [In app] in Hin. destruct Hin as [H | []]. discriminate H. }
  destruct req as [[f|] [fields|]]; cbn [req_file].
  - rewrite post_upload_success_trace in Hin.
    apply in_app_or in Hin as [Hin | Hin].
    { cbn [In app] in Hin. destruct Hin as [H | [H | []]]; discriminate H. }
    destruct (log_preview_run w f)
      as [Hrun | [(content & Hread & Hrun) | (readError & Hread & Hrun)]];
      rewrite Hrun in Hin; cbn [In app] in Hin.
    + destruct Hin.
    + destruct Hin as [H | [H | []]]; [discriminate H|].
      injection H as <-. split.
      * destruct (500 <? String.length content)%nat eqn:Hlong.
        -- rewrite length_append. unfold substring0.
           pose proof (length_substring_le 500 content 0). simpl. lia.
        -- apply Nat.ltb_ge in Hlong. lia.
      * exists f, content. repeat split; [exact Hread|]. intros Hshort.
        apply Nat.ltb_ge in Hshort. by rewrite Hshort.
    + destruct Hin as [H | [H | []]]; discriminate H.
  - cbn [In app] in Hin. destruct Hin as [H | [H | []]]; discriminate H.
  - destruct Hin.
  - destruct Hin.
Qed.

Lemma preview_is_bounded_witness :
  (String.length "[1, 2, 3]" <= 503)%nat.
Proof.
  refine (proj1 (preview_is_bounded readable_world None
                   {| req_file := Some report_file; req_body := Some [] |}
                   "[1, 2, 3]" _)).
  right; right; right; left. reflexivity.
Defined.



(** X5. When multer reports an error the answer is decided by the error
    alone (the request and the environment play no part): one console line,
    status 413 exactly for the code [LIMIT_FILE_SIZE], and otherwise 400
    "Upload error" with the error's message as details. *)
Theorem upload_error_answer
    (w w' : World) (e : JsError) (req req' : Request) :
  post_upload w (Some e) req = post_upload w' (Some e) req'
  /\ trace (post_upload w (Some e) req)
     = [console_error [AStr "❌ Multer error:"; AErr e]]
  /\ (status (value (post_upload w (Some e) req)) = 413
      <-> err_code e = Some "LIMIT_FILE_SIZE")
  /\ (err_code e <> Some "LIMIT_FILE_SIZE" ->
      value (post_upload w (Some e) req)
      = respond 400 [("success", JBool false);
                     ("error", JStr "Upload error");
                     ("details", JStr (err_message e))]).
Proof.
  split; [reflexivity|]. split.
  { destruct (post_upload_error_run w e req) as [r ->]. reflexivity. }
  split; [|apply post_upload_other_error].
  split.
  - intros Hstatus.
    destruct (decide (err_code e = Some "LIMIT_FILE_SIZE")) as [|Hne]; [done|].
    rewrite (post_upload_other_error w e req Hne) in Hstatus. discriminate.
  - intros Hcode. by rewrite (post_upload_file_too_large w e req Hcode).
Qed.

Lemma upload_error_answer_witness :
  value (post_upload bare_world (Some (MulterError "LIMIT_FILE_COUNT" "file"))
           no_file_request)
  = respond 400 [("success", JBool false);
                 ("error", JStr "Upload error");
                 ("details", JStr "Too many files")].
Proof.
  destruct (upload_error_answer bare_world bare_world
              (MulterError "LIMIT_FILE_COUNT" "file")
              no_file_request no_file_request) as (_ & _ & _ & Hother).
  apply Hother. discriminate.
Defined.

(** X6. A [path] form field with a truthy value (a non-empty string, an
    array of repeated fields) is echoed unchanged as [file.path]. *)
Theorem declared_path_is_echoed
    (w : World) (f : File.t) (fields : list (string * json)) (v : json) :
  get_prop fields "path" = Some v ->
  truthy (Some v) = true ->
  exists info : json,
    prop (body (value (post_upload w None
                         {| req_file := Some f; req_body := Some fields |})))
         "file" = Some info
    /\ prop info "path" = Some v.
Proof.
  intros Hpath Htruthy. rewrite post_upload_success.
  exists (fileInfo w f fields). split; [reflexivity|].
  unfold fileInfo, js_or. rewrite Hpath, Htruthy. reflexivity.
Qed.

Lemma declared_path_is_echoed_witness :
  exists info : json,
    prop (body (value (post_upload bare_world None
                         {| req_file := Some report_file;
                            req_body := Some [("path", JStr "docs/report.json")] |})))
         "file" = Some info
    /\ prop info "path" = Some (JStr "docs/report.json").
Proof.
  apply (declared_path_is_echoed bare_world report_file
           [("path", JStr "docs/report.json")] (JStr "docs/report.json"));
    reflexivity.
Defined.

(** ** Rounding *)

Lemma Math_round_div (n d : Z) :
  0 < d ->
  JsNumber.Math_round (JsNumber.div (JsNumber.of_prop (Some n)) d)
  = Some ((2 * n + d) / (2 * d)).
Proof.
  intros Hd. destruct d as [|p|p]; try lia. cbn [JsNumber.of_prop JsNumber.div JsNumber.Math_round].
  f_equal.
  assert (Heq : (inject_Z n / inject_Z (Z.pos p) + (1 # 2) == (2 * n + Z.pos p) # (2 * p))%Q).
  { unfold Qeq, Qdiv, Qinv, Qmult, Qplus, inject_Z. cbn. lia. }
  rewrite (Qfloor_comp _ _ Heq). reflexivity.
Qed.

(** X7. The first line logged for an accepted file states its size in KiB
    rounded to the nearest integer, halves upwards: [(size + 512) / 1024],
    which is within 512 bytes of the size. *)
Theorem receiving_log_is_nearest_KB
    (w : World) (f : File.t) (fields : option (list (string * json))) :
  exists (k : Z) (rest : list event),
    trace (post_upload w None {| req_file := Some f; req_body := fields |})
    = console_log
        [AStr ("📤 Receiving file: " +:+ File.originalname f +:+ " ("
               +:+ of_int k +:+ "KB)")] :: rest
    /\ k = (File.size f + 512) / 1024
    /\ 1024 * k - 512 <= File.size f < 1024 * k + 512.
Proof.
  exists ((File.size f + 512) / 1024).
  assert (Hround : JsNumber.to_string
                     (JsNumber.Math_round
                        (JsNumber.div (JsNumber.of_prop (Some (File.size f)))
                           1024))
                   = of_int ((File.size f + 512) / 1024)).
  { rewrite Math_round_div by lia. cbn [JsNumber.to_string]. f_equal.
    Z.div_mod_to_equations. lia. }
  destruct fields as [fields|].
  - eexists. rewrite post_upload_success_trace, Hround.
    split; [reflexivity|]. split; [reflexivity|].
    Z.div_mod_to_equations. lia.
  - eexists. unfold post_upload, trace. cbn [req_file req_body].
    rewrite Hround. split; [reflexivity|]. split; [reflexivity|].
    Z.div_mod_to_equations. lia.
Qed.

(** ** More on [Promise.all] and [GET /files] *)

Section PromiseMore.
Context {A : Type}.
Local Open Scope nat_scope.

Lemma Promise_all_settle_rejected (promises : list (result A)) (sched : list nat) :
  forall (values : list (option A)) (remaining : nat),
    (forall i, In i sched -> i < length promises) ->
    (exists i e, In i sched /\ promises !! i = Some (Err e)) ->
    length (List.filter (is_fulfilled promises) sched) < remaining ->
    exists i e,
      In i sched /\ promises !! i = Some (Err e)
      /\ Promise_all_settle promises sched values remaining = Some (Err e).
Proof.
  induction sched as [|i rest IH]; intros values remaining Hrange Hrej Hcount.
  { destruct Hrej as (i & e & [] & _). }
  assert (Hi : i < length promises) by (apply Hrange; by left).
  destruct (lookup_lt_is_Some_2 promises i Hi) as [r Hr].
  cbn [Promise_all_settle]. rewrite Hr. destruct r as [v | e].
  - assert (Hful : is_fulfilled promises i = true)
      by (unfold is_fulfilled; by rewrite Hr).
    cbn [List.filter] in Hcount. rewrite Hful in Hcount. cbn [length] in Hcount.
    destruct (Nat.eqb_spec (remaining - 1) 0) as [Hz | _]; [lia|].
    destruct (IH (<[i:=Some v]> values) (remaining - 1)) as (j & e & Hj & He & Hrun).
    + intros j Hj. apply Hrange. by right.
    + destruct Hrej as (j & e & [<- | Hj] & He); [congruence|]. by exists j, e.
    + lia.
    + exists j, e. split; [by right|]. by split.
  - exists i, e. split; [by left|]. by split.
Qed.

Lemma filter_length_lt (f : nat -> bool) (l : list nat) (x : nat) :
  In x l -> f x = false -> length (List.filter f l) < length l.
Proof.
  intros Hin Hx. induction l as [|a l IH]; [destruct Hin|].
  cbn [List.filter]. destruct Hin as [-> | Hin].
  - rewrite Hx. pose proof (List.filter_length_le f l). simpl. lia.
  - specialize (IH Hin). destruct (f a); simpl; lia.
Qed.

(** One rejected promise makes the whole reject, once every promise has
    settled. *)
Lemma Promise_all_rejected (promises : list (result A)) (sched : list nat)
    (j : nat) (e : JsError) :
  sched ≡ₚ seq 0 (length promises) ->
  promises !! j = Some (Err e) ->
  exists i e',
    promises !! i = Some (Err e')
    /\ Promise_all promises sched = Some (Err e').
Proof.
  intros Hperm Hj. unfold Promise_all.
  assert (Hjlt : j < length promises) by (by apply lookup_lt_Some in Hj).
  destruct (Nat.eqb_spec (length promises) 0) as [Hz | _]; [lia|].
  assert (Hjin : In j sched).
  { apply list_elem_of_In. rewrite Hperm. apply elem_of_seq. lia. }
  destruct (Promise_all_settle_rejected promises sched
              (replicate (length promises) None) (length promises))
    as (i & e' & _ & He' & Hrun).
  - intros i Hi. apply list_elem_of_In in Hi. rewrite Hperm in Hi.
    apply elem_of_seq in Hi. lia.
  - by exists j, e.
  - assert (Hlen : length sched = length promises).
    { rewrite (Permutation_length Hperm). apply length_seq. }
    rewrite <- Hlen. apply (filter_length_lt _ _ j Hjin).
    unfold is_fulfilled. by rewrite Hj.
  - by exists i, e'.
Qed.

(** While fulfilled promises are outstanding the whole stays pending. *)
Lemma Promise_all_settle_pending (promises : list (result A)) (sched : list nat) :
  forall (values : list (option A)) (remaining : nat),
    (forall i e, In i sched -> promises !! i <> Some (Err e)) ->
    length sched < remaining ->
    Promise_all_settle promises sched values remaining = None.
Proof.
  induction sched as [|i rest IH]; intros values remaining Hok Hlen;
    [reflexivity|].
  cbn [Promise_all_settle]. cbn [length] in Hlen.
  destruct (promises !! i) as [[v | e]|] eqn:Hr.
  - destruct (Nat.eqb_spec (remaining - 1) 0) as [Hz | _]; [lia|].
    apply IH; [|lia]. intros j e Hj. apply Hok. by right.
  - exfalso. apply (Hok i e); [by left | exact Hr].
  - apply IH; [|lia]. intros j e Hj. apply Hok. by right.
Qed.

End PromiseMore.

Section ListingMore.
Variable dirname : string.
Variable path_join : string -> string -> string.

Abbreviation dir := (uploadsDir dirname path_join).

Lemma map_M_file_details (w : World) (files : list string) :
  map_M (file_details dirname path_join w) files
  = (map (fun filename => fs_call op_stat (path_join dir filename)) files,
     map (fun filename => value (file_details dirname path_join w filename))
         files).
Proof.
  induction files as [|filename files IH]; [reflexivity|].
  cbn [map_M map]. rewrite IH. unfold file_details at 1 3, stat, emit, ret.
  rewrite !bind_pair. cbn [trace value fst snd].
  destruct (fs_stat w (path_join dir filename)) as [st | e];
    cbn [fst snd app]; rewrite ?app_nil_r; reflexivity.
Qed.

Lemma file_details_rejected (w : World) (files : list string) (i : nat)
    (e : JsError) :
  map (fun filename => value (file_details dirname path_join w filename)) files
    !! i = Some (Err e) <->
  exists filename, files !! i = Some filename
                   /\ fs_stat w (path_join dir filename) = Err e.
Proof.
  rewrite list_lookup_fmap. unfold file_details, stat, emit, ret.
  destruct (files !! i) as [filename|]; cbn [fmap option_fmap option_map].
  - rewrite !bind_pair. cbn [trace value fst snd].
    destruct (fs_stat w (path_join dir filename)) as [st | e'] eqn:Hst;
      cbn [snd]; split.
    + discriminate.
    + intros (filename' & [= <-] & Hst'). rewrite Hst in Hst'. discriminate.
    + intros [= ->]. by exists filename.
    + intros (filename' & [= <-] & Hst'). rewrite Hst in Hst'.
      injection Hst' as ->. reflexivity.
  - split; [discriminate | intros (filename & H & _); discriminate].
Qed.

(** How a listing runs once the directory has been read. *)
Lemma get_files_run (w : World) (sched : list nat) (files : list string) :
  fs_readdir w dir = Ok files ->
  get_files dirname path_join w sched
  = let calls :=
      fs_call op_readdir dir
      :: map (fun filename => fs_call op_stat (path_join dir filename)) files in
    match Promise_all
            (map (fun filename =>
                    value (file_details dirname path_join w filename)) files)
            sched with
    | None => (calls, None)
    | Some (Ok fileDetails) =>
        (calls,
         Some (respond 200
                 [("success", JBool true);
                  ("files", JArr (map (default JNull) fileDetails))]))
    | Some (Err error) =>
        (calls ++ [console_error [AStr "❌ Error listing files:"; AErr error]],
         Some (respond 500
                 [("success", JBool false);
                  ("error", JStr "Could not list files");
                  ("details", JStr (err_message error))]))
    end.
Proof.
  intros Hdir. unfold get_files, readdir, emit, ret.
  rewrite !bind_pair. cbn [trace value fst snd]. rewrite Hdir.
  rewrite map_M_file_details, !bind_pair. cbn [trace value fst snd].
  destruct (Promise_all _ sched) as [[ds | e]|];
    cbn [fst snd app]; rewrite ?app_nil_r; reflexivity.
Qed.

(** X9. When the uploads directory cannot be read the listing answers 500
    "Could not list files" with the error's message, logs the error and
    issues no stat call, whatever the schedule. *)
Theorem get_files_unreadable_directory_is_500
    (w : World) (sched : list nat) (e : JsError) :
  fs_readdir w dir = Err e ->
  get_files dirname path_join w sched
  = ([fs_call op_readdir dir;
      console_error [AStr "❌ Error listing files:"; AErr e]],
     Some (respond 500
             [("success", JBool false);
              ("error", JStr "Could not list files");
              ("details", JStr (err_message e))])).
Proof.
  intros Hdir. unfold get_files, readdir, emit, ret.
  rewrite !bind_pair. cbn [trace value fst snd]. rewrite Hdir. reflexivity.
Qed.

(** X10. An empty uploads directory is answered at once with
    [success: true] and an empty list: there is nothing to wait for. *)
Theorem get_files_empty_directory (w : World) (sched : list nat) :
  fs_readdir w dir = Ok [] ->
  get_files dirname path_join w sched
  = ([fs_call op_readdir dir],
     Some (respond 200 [("success", JBool true); ("files", JArr [])])).
Proof. intros Hdir. rewrite (get_files_run w sched [] Hdir). reflexivity. Qed.

(** X11. If one entry cannot be statted, then once all lookups have
    completed the listing answers 500 with the message of a failed stat: no
    partial list is ever returned, although every stat call was issued. *)
Theorem get_files_is_all_or_nothing
    (w : World) (sched : list nat) (files : list string)
    (filename : string) (e : JsError) :
  fs_readdir w dir = Ok files ->
  In filename files ->
  fs_stat w (path_join dir filename) = Err e ->
  sched ≡ₚ seq 0 (length files) ->
  exists (failed : string) (error : JsError),
    In failed files
    /\ fs_stat w (path_join dir failed) = Err error
    /\ get_files dirname path_join w sched
       = (fs_call op_readdir dir
          :: map (fun filename => fs_call op_stat (path_join dir filename)) files
          ++ [console_error [AStr "❌ Error listing files:"; AErr error]],
          Some (respond 500
                  [("success", JBool false);
                   ("error", JStr "Could not list files");
                   ("details", JStr (err_message error))])).
Proof.
  intros Hdir Hin Hstat Hsched.
  apply list_elem_of_In, list_elem_of_lookup in Hin as [j Hj].
  destruct (Promise_all_rejected
              (map (fun filename =>
                      value (file_details dirname path_join w filename)) files)
              sched j e) as (i & error & Hi & Hrun).
  - by rewrite length_map.
  - apply file_details_rejected. by exists filename.
  - apply file_details_rejected in Hi as (failed & Hfailed & Herror).
    exists failed, error. split.
    { apply list_elem_of_In, list_elem_of_lookup. by exists i. }
    split; [exact Herror|].
    rewrite (get_files_run w sched files Hdir). cbv zeta. rewrite Hrun.
    reflexivity.
Qed.

(** X12. While every entry can be statted but fewer lookups have completed
    than there are entries, the listing has not answered. *)
Theorem get_files_waits_for_every_stat
    (w : World) (sched : list nat) (files : list string) :
  fs_readdir w dir = Ok files ->
  (forall filename, In filename files ->
                    exists st, fs_stat w (path_join dir filename) = Ok st) ->
  (length sched < length files)%nat ->
  value (get_files dirname path_join w sched) = None.
Proof.
  intros Hdir Hstats Hshort.
  rewrite (get_files_run w sched files Hdir). cbv zeta.
  assert (Hpending : Promise_all
            (map (fun filename =>
                    value (file_details dirname path_join w filename)) files)
            sched = None).
  { unfold Promise_all. rewrite length_map.
    destruct (Nat.eqb_spec (length files) 0) as [Hz | _]; [lia|].
    apply Promise_all_settle_pending; [|exact Hshort].
    intros i e _ Hi. apply file_details_rejected in Hi as (filename & Hf & He).
    destruct (Hstats filename) as [st Hst].
    - apply list_elem_of_In, list_elem_of_lookup. by exists i.
    - congruence. }
  rewrite Hpending. reflexivity.
Qed.

(** X13. The listing reads the uploads directory, stats entries of that
    directory, and logs its error; it reads no file content, binds no socket
    and never ends the process. *)
Theorem get_files_effects (w : World) (sched : list nat) (e : event) :
  In e (trace (get_files dirname path_join w sched)) ->
  e = fs_call op_readdir dir
  \/ (exists files filename,
        fs_readdir w dir = Ok files /\ In filename files
        /\ e = fs_call op_stat (path_join dir filename))
  \/ (exists error : JsError,
        e = console_error [AStr "❌ Error listing files:"; AErr error]).
Proof.
  intros Hin. destruct (fs_readdir w dir) as [files | err] eqn:Hdir.
  - rewrite (get_files_run w sched files Hdir) in Hin. cbv zeta in Hin.
    assert (Hcalls : forall x,
              In x (fs_call op_readdir dir
                    :: map (fun filename =>
                              fs_call op_stat (path_join dir filename)) files) ->
              x = fs_call op_readdir dir
              \/ exists files0 filename,
                   Ok files = Ok files0 /\ In filename files0
                   /\ x = fs_call op_stat (path_join dir filename)).
    { intros x [<- | Hx]; [by left|]. right.
      apply in_map_iff in Hx as (filename & <- & Hf). by exists files, filename. }
    destruct (Promise_all _ sched) as [[ds | error]|]; cbn [trace fst] in Hin.
    + destruct (Hcalls e Hin) as [-> | H]; [by left | right; by left].
    + change (fs_call op_readdir dir :: ?l ++ ?t)
        with ((fs_call op_readdir dir :: l) ++ t) in Hin.
      apply in_app_or in Hin as [Hin | [<- | []]].
      * destruct (Hcalls e Hin) as [-> | H]; [by left | right; by left].
      * right; right. by exists error.
    + destruct (Hcalls e Hin) as [-> | H]; [by left | right; by left].
  - unfold get_files, readdir, emit, ret in Hin.
    rewrite !bind_pair in Hin. cbn [trace value fst snd] in Hin.
    rewrite Hdir in Hin. cbn [trace fst snd app In] in Hin. destruct Hin as [<- | [<- | []]]; [by left|].
    right; right. by exists err.
Qed.

End ListingMore.

Lemma get_files_unreadable_directory_is_500_witness :
  get_files "/srv/app" plain_join readable_world [0%nat]
  = ([fs_call op_readdir "/srv/app/uploads";
      console_error [AStr "❌ Error listing files:";
                     AErr (ENOENT "scandir" "/srv/app/uploads")]],
     Some (respond 500
             [("success", JBool false);
              ("error", JStr "Could not list files");
              ("details",
               JStr (err_message (ENOENT "scandir" "/srv/app/uploads")))])).
Proof.
  apply (get_files_unreadable_directory_is_500 "/srv/app" plain_join
           readable_world [0%nat] (ENOENT "scandir" "/srv/app/uploads")).
  reflexivity.
Defined.

Lemma get_files_empty_directory_witness :
  get_files "/srv/app" plain_join bare_world [3%nat]
  = ([fs_call op_readdir "/srv/app/uploads"],
     Some (respond 200 [("success", JBool true); ("files", JArr [])])).
Proof.
  apply (get_files_empty_directory "/srv/app" plain_join bare_world [3%nat]).
  reflexivity.
Defined.

Lemma get_files_is_all_or_nothing_witness :
  exists (failed : string) (error : JsError),
    In failed ["ghost.txt"]
    /\ fs_stat dangling_link_world
         (plain_join (uploadsDir "/srv/app" plain_join) failed) = Err error
    /\ get_files "/srv/app" plain_join dangling_link_world [0%nat]
       = (fs_call op_readdir (uploadsDir "/srv/app" plain_join)
          :: map (fun filename =>
                    fs_call op_stat
                      (plain_join (uploadsDir "/srv/app" plain_join) filename))
                 ["ghost.txt"]
          ++ [console_error [AStr "❌ Error listing files:"; AErr error]],
          Some (respond 500
                  [("success", JBool false);
                   ("error", JStr "Could not list files");
                   ("details", JStr (err_message error))])).
Proof.
  apply (get_files_is_all_or_nothing "/srv/app" plain_join dangling_link_world
           [0%nat] ["ghost.txt"] "ghost.txt"
           (ENOENT "stat" "/srv/app/uploads/ghost.txt")).
  - reflexivity.
  - left. reflexivity.
  - reflexivity.
  - apply Permutation_refl.
Defined.

Lemma get_files_waits_for_every_stat_witness :
  value (get_files "/srv/app" plain_join two_files_world [1%nat]) = None.
Proof.
  apply (get_files_waits_for_every_stat "/srv/app" plain_join two_files_world
           [1%nat] ["b.txt"; "a.txt"]).
  - reflexivity.
  - intros filename [<- | [<- | []]]; eexists; reflexivity.
  - simpl. lia.
Defined.

Lemma get_files_effects_witness :
  fs_call op_stat "/srv/app/uploads/a.txt"
  = fs_call op_readdir (uploadsDir "/srv/app" plain_join)
  \/ (exists files filename,
        fs_readdir two_files_world (uploadsDir "/srv/app" plain_join) = Ok files
        /\ In filename files
        /\ fs_call op_stat "/srv/app/uploads/a.txt"
           = fs_call op_stat
               (plain_join (uploadsDir "/srv/app" plain_join) filename))
  \/ (exists error : JsError,
        fs_call op_stat "/srv/app/uploads/a.txt"
        = console_error [AStr "❌ Error listing files:"; AErr error]).
Proof.
  apply (get_files_effects "/srv/app" plain_join two_files_world [1; 0]%nat).
  right; right; left. reflexivity.
Defined.

(** ** More on start-up *)

Ltac run_startup :=
  unfold startHttpsServer, readFile, emit, ret;
  rewrite ?bind_pair; cbn [trace value fst snd].

(** X14. Start-up returns a server exactly when the key and the certificate
    can be read and [https.createServer] accepts them; its effects are then
    the read of the key, the read of the certificate and one
    [server.listen], over TLS, on port 3443, and nothing else. *)
Theorem startup_succeeds_iff (w : World) (server : Server) :
  value (startHttpsServer w) = Some server <->
  exists key cert : string,
    fs_readFile w "./private.key" = Ok key
    /\ fs_readFile w "./public.crt" = Ok cert
    /\ https_createServer w key cert = Ok server
    /\ trace (startHttpsServer w)
       = [fs_call op_readFile "./private.key";
          fs_call op_readFile "./public.crt";
          listen Tls 3443].
Proof.
  run_startup.
  destruct (fs_readFile w "./private.key") as [key | e1];
    [rewrite ?bind_pair; cbn [trace value fst snd];
     destruct (fs_readFile w "./public.crt") as [cert | e2];
     cbn [trace value fst snd];
     [destruct (https_createServer w key cert) as [srv | e3] eqn:Hsrv |] |];
    cbn; split.
  - intros [= <-]. by exists key, cert.
  - intros (key' & cert' & [= <-] & [= <-] & Hsrv' & _). congruence.
  - discriminate.
  - intros (key' & cert' & [= <-] & [= <-] & Hsrv' & _). congruence.
  - discriminate.
  - intros (key' & cert' & _ & Hcert & _). discriminate Hcert.
  - discriminate.
  - intros (key' & cert' & Hkey & _). discriminate Hkey.
Qed.

(** X15. Key material that can be read but that [https.createServer]
    rejects is fatal as well: the error is logged and the process exits with
    code 1 without listening. *)
Theorem startup_with_unusable_tls_material_exits
    (w : World) (key cert : string) (e : JsError) :
  fs_readFile w "./private.key" = Ok key ->
  fs_readFile w "./public.crt" = Ok cert ->
  https_createServer w key cert = Err e ->
  startHttpsServer w
  = ([fs_call op_readFile "./private.key";
      fs_call op_readFile "./public.crt";
      console_error [AStr "Error starting HTTPS server:"; AErr e];
      console_error
        [AStr "Make sure public.cert and private.key files exist in the same directory"];
      process_exit 1],
     None).
Proof.
  intros Hkey Hcert Hsrv. run_startup. rewrite Hkey.
  rewrite !bind_pair. cbn [trace value fst snd]. rewrite Hcert.
  cbn [trace value fst snd]. rewrite Hsrv. reflexivity.
Qed.

Lemma startup_with_unusable_tls_material_exits_witness :
  startHttpsServer bad_tls_world
  = ([fs_call op_readFile "./private.key";
      fs_call op_readFile "./public.crt";
      console_error [AStr "Error starting HTTPS server:";
                     AErr PEM_no_start_line];
      console_error
        [AStr "Make sure public.cert and private.key files exist in the same directory"];
      process_exit 1],
     None).
Proof.
  apply (startup_with_unusable_tls_material_exits bad_tls_world
           "not a key" "not a key" PEM_no_start_line); reflexivity.
Defined.

(** X16. The certificate is read exactly when the key could be read. *)
Theorem certificate_is_read_iff_key_is_readable (w : World) :
  In (fs_call op_readFile "./public.crt") (trace (startHttpsServer w)) <->
  exists key : string, fs_readFile w "./private.key" = Ok key.
Proof.
  run_startup.
  destruct (fs_readFile w "./private.key") as [key | e1];
    [rewrite ?bind_pair; cbn [trace value fst snd];
     destruct (fs_readFile w "./public.crt") as [cert | e2];
     cbn [trace value fst snd];
     [destruct (https_createServer w key cert) as [srv | e3] |] |];
    cbn; split; try (intros _; by exists key); try (intros _; right; by left).
  - intros Hin.
    repeat (destruct Hin as [Hin | Hin]; [discriminate Hin|]). destruct Hin.
  - intros [key Hkey]. discriminate Hkey.
Qed.

(** X17. Start-up either returns a server, listens on [PORT] over TLS and
    does not exit, or returns nothing, ends with [process.exit(1)] and never
    listened. *)
Theorem startup_listens_or_exits (w : World) :
  (exists server : Server,
     value (startHttpsServer w) = Some server
     /\ In (listen Tls PORT) (trace (startHttpsServer w))
     /\ forall c, ~ In (process_exit c) (trace (startHttpsServer w)))
  \/ (value (startHttpsServer w) = None
      /\ last (trace (startHttpsServer w)) = Some (process_exit 1)
      /\ forall t port, ~ In (listen t port) (trace (startHttpsServer w))).
Proof.
  unfold startHttpsServer, readFile, emit, ret.
  rewrite !bind_pair. cbn [trace value fst snd].
  destruct (fs_readFile w "./private.key") as [key | e1];
    [rewrite !bind_pair; cbn [trace value fst snd];
     destruct (fs_readFile w "./public.crt") as [cert | e2];
     cbn [trace value fst snd];
     [destruct (https_createServer w key cert) as [server | e3] |] |].
  - left. exists server. cbn. split; [reflexivity|]. split.
    + right; right; by left.
    + intros c Hin.
      repeat (destruct Hin as [Hin | Hin]; [discriminate Hin|]). destruct Hin.
  - right. cbn. split; [reflexivity|]. split; [reflexivity|].
    intros t port Hin.
    repeat (destruct Hin as [Hin | Hin]; [discriminate Hin|]). destruct Hin.
  - right. cbn. split; [reflexivity|]. split; [reflexivity|].
    intros t port Hin.
    repeat (destruct Hin as [Hin | Hin]; [discriminate Hin|]). destruct Hin.
  - right. cbn. split; [reflexivity|]. split; [reflexivity|].
    intros t port Hin.
    repeat (destruct Hin as [Hin | Hin]; [discriminate Hin|]). destruct Hin.
Qed.

(** ** More on strings *)

Lemma append_assoc (s t u : string) : (s +:+ t) +:+ u = s +:+ (t +:+ u).
Proof.
  induction s as [|a r IH]; [reflexivity|].
  rewrite !append_String. by rewrite IH.
Qed.

Lemma count_char_append (c : ascii) (s t : string) :
  count_char c (s +:+ t) = (count_char c s + count_char c t)%nat.
Proof.
  induction s as [|a r IH]; [reflexivity|].
  rewrite append_String. simpl. rewrite IH. lia.
Qed.

Lemma count_char_replace_colon_dot (c : ascii) (s : string) :
  count_char c (replace_colon_dot s)
  = if Ascii.eqb c ":" || Ascii.eqb c "." then 0%nat
    else if Ascii.eqb c "-"
         then (count_char ":" s + count_char "." s + count_char "-" s)%nat
         else count_char c s.
Proof.
  induction s as [|a r IH]; simpl.
  - destruct (Ascii.eqb c ":" || Ascii.eqb c "."); [reflexivity|].
    destruct (Ascii.eqb c "-"); reflexivity.
  - rewrite IH. clear IH.
    destruct (Ascii.eqb_spec a ":") as [-> | Ha1];
      [|destruct (Ascii.eqb_spec a ".") as [-> | Ha2]]; cbn [orb].
    + destruct (Ascii.eqb_spec c ":") as [-> | Hc1]; [reflexivity|].
      destruct (Ascii.eqb_spec c ".") as [-> | Hc2]; [reflexivity|]. cbn [orb].
      destruct (Ascii.eqb_spec c "-") as [-> | Hc3]; [simpl; lia|].
      destruct (Ascii.eqb_spec "-"%char c); [congruence|].
      destruct (Ascii.eqb_spec ":"%char c); [congruence|]. reflexivity.
    + destruct (Ascii.eqb_spec c ":") as [-> | Hc1]; [reflexivity|].
      destruct (Ascii.eqb_spec c ".") as [-> | Hc2]; [reflexivity|]. cbn [orb].
      destruct (Ascii.eqb_spec c "-") as [-> | Hc3]; [simpl; lia|].
      destruct (Ascii.eqb_spec "-"%char c); [congruence|].
      destruct (Ascii.eqb_spec "."%char c); [congruence|]. reflexivity.
    + destruct (Ascii.eqb_spec c ":") as [-> | Hc1].
      { destruct (Ascii.eqb_spec a ":"); [congruence | reflexivity]. }
      destruct (Ascii.eqb_spec c ".") as [-> | Hc2].
      { destruct (Ascii.eqb_spec a "."); [congruence | reflexivity]. }
      cbn [orb].
      destruct (Ascii.eqb_spec c "-") as [-> | Hc3].
      * destruct (Ascii.eqb_spec a ":"); [congruence|].
        destruct (Ascii.eqb_spec a "."); [congruence|]. lia.
      * reflexivity.
Qed.

Lemma lastIndexOf_append (c : ascii) (s t : string) :
  lastIndexOf c (s +:+ t)
  = match lastIndexOf c t with
    | Some i => Some (String.length s + i)%nat
    | None => lastIndexOf c s
    end.
Proof.
  induction s as [|a r IH].
  - change (EmptyString +:+ t) with t. destruct (lastIndexOf c t); reflexivity.
  - rewrite append_String. simpl. rewrite IH.
    destruct (lastIndexOf c t) as [i|]; reflexivity.
Qed.

Lemma count_zero_lastIndexOf (c : ascii) (s : string) :
  count_char c s = 0%nat -> lastIndexOf c s = None.
Proof.
  induction s as [|a r IH]; [reflexivity|]. simpl.
  destruct (Ascii.eqb a c); [discriminate|]. intros H. by rewrite IH.
Qed.

Lemma substring_append_r (s t : string) :
  String.substring (String.length s) (String.length t) (s +:+ t) = t.
Proof.
  induction s as [|a r IH]; [apply substring_full|].
  rewrite append_String. exact IH.
Qed.

Lemma append_inj_length (s1 s2 t1 t2 : string) :
  String.length s1 = String.length s2 ->
  s1 +:+ t1 = s2 +:+ t2 -> s1 = s2 /\ t1 = t2.
Proof.
  revert s2. induction s1 as [|a r IH]; intros [|b q] Hlen Heq;
    try discriminate Hlen.
  - by split.
  - rewrite !append_String in Heq. injection Heq as -> Heq.
    injection Hlen as Hlen. destruct (IH q Hlen Heq) as [-> ->]. by split.
Qed.

Lemma append_inj_r (s1 s2 t : string) : s1 +:+ t = s2 +:+ t -> s1 = s2.
Proof.
  intros Heq. apply (append_inj_length s1 s2 t t); [|exact Heq].
  apply (f_equal String.length) in Heq. rewrite !length_append in Heq. lia.
Qed.

(** ** More on the filename allocator *)

Lemma count_char_filename (c : ascii) (iso originalname : string) :
  c <> "_"%char ->
  count_char "/" originalname = 0%nat ->
  count_char c (filename iso originalname)
  = (count_char c originalname + count_char c (replace_colon_dot iso))%nat.
Proof.
  intros Hc Hslash.
  pose proof (basename_extname_no_dir originalname Hslash) as Hsplit.
  unfold filename.
  set (ext := path.extname originalname) in *.
  set (base := path.basename originalname ext) in *.
  rewrite <- Hsplit, !count_char_append.
  change (count_char c "_")
    with ((if Ascii.eqb "_" c then 1 else 0) + 0)%nat.
  destruct (Ascii.eqb_spec "_"%char c); [congruence|]. lia.
Qed.

(** X18. For a name without directory part, the allocated name has as many
    [:] and as many [.] as the original name (the timestamp adds none), has a
    [/] only if the clock string had one, and is longer by one plus the
    length of the clock string. *)
Theorem filename_adds_no_colon_or_dot (iso originalname : string) :
  count_char "/" originalname = 0%nat ->
  count_char ":" (filename iso originalname) = count_char ":" originalname
  /\ count_char "." (filename iso originalname) = count_char "." originalname
  /\ count_char "/" (filename iso originalname) = count_char "/" iso
  /\ String.length (filename iso originalname)
     = (String.length originalname + 1 + String.length iso)%nat.
Proof.
  intros Hslash.
  rewrite !(count_char_filename _ iso originalname) by (done || discriminate).
  rewrite !count_char_replace_colon_dot. cbn [Ascii.eqb orb Bool.eqb].
  rewrite Hslash. repeat split; try lia.
  pose proof (basename_extname_no_dir originalname Hslash) as Hsplit.
  unfold filename.
  set (ext := path.extname originalname) in *.
  set (base := path.basename originalname ext) in *.
  rewrite <- Hsplit, !length_append, replace_colon_dot_length.
  change (String.length "_") with 1%nat. lia.
Qed.

Lemma filename_adds_no_colon_or_dot_witness :
  count_char "." (filename "2024-01-02T03:04:05.678Z" "a.tar.gz") = 2%nat
  /\ String.length (filename "2024-01-02T03:04:05.678Z" "a.tar.gz") = 33%nat.
Proof.
  destruct (filename_adds_no_colon_or_dot "2024-01-02T03:04:05.678Z" "a.tar.gz")
    as (_ & Hdots & _ & Hlen); [reflexivity|].
  split; [exact Hdots | exact Hlen].
Defined.

Lemma extension_of_filename (iso originalname : string) :
  count_char "/" originalname = 0%nat ->
  originalname <> ".." ->
  extension_of (filename iso originalname) = extension_of originalname.
Proof.
  intros Hslash Hne.
  assert (Hts : count_char "." (replace_colon_dot iso) = 0%nat).
  { rewrite count_char_replace_colon_dot. reflexivity. }
  unfold filename. rewrite (extname_no_dir originalname Hslash).
  unfold extension_of at 2 3 4.
  destruct (lastIndexOf "." originalname) as [[|d]|] eqn:HL.
  - (* a leading dot only *)
    rewrite basename_no_suffix_no_dir by exact Hslash.
    rewrite append_empty_r. unfold extension_of.
    rewrite lastIndexOf_append.
    change ("_" +:+ replace_colon_dot iso)
      with (String "_" (replace_colon_dot iso)).
    cbn [lastIndexOf]. rewrite (count_zero_lastIndexOf _ _ Hts).
    cbn [Ascii.eqb Bool.eqb]. rewrite HL. reflexivity.
  - apply String.eqb_neq in Hne. rewrite Hne.
    destruct (lastIndexOf_Some _ _ _ HL) as [Hd Hafter].
    pose proof (get_Some_length _ _ _ Hd) as Hlen.
    rewrite basename_no_dir by (done || lia).
    set (ext := String.substring (S d) (String.length originalname - S d)
                  originalname).
    set (base := String.substring 0 (S d) originalname).
    assert (Hext : lastIndexOf "." ext = Some 0%nat).
    { pose proof (extension_of_shape originalname) as Hshape.
      unfold extension_of in Hshape. rewrite HL, Hne in Hshape.
      fold ext in Hshape. destruct Hshape as [E | [H0 Hk]].
      - assert (Hl : String.length ext = (String.length originalname - S d)%nat)
          by (apply length_substring; lia).
        rewrite E in Hl. simpl in Hl. lia.
      - destruct ext as [|a r]; [discriminate H0|]. injection H0 as ->.
        cbn [lastIndexOf].
        destruct (lastIndexOf "." r) as [j|] eqn:Hr; [|reflexivity].
        destruct (lastIndexOf_Some _ _ _ Hr) as [Hj _].
        specialize (Hk (S j) ltac:(lia)). cbn [String.get] in Hk.
        rewrite Hj in Hk. discriminate Hk. }
    assert (Hbase : String.length base = S d)
      by (apply length_substring; lia).
    assert (Hextlen : String.length ext = (String.length originalname - S d)%nat)
      by (apply length_substring; lia).
    rewrite <- !append_assoc.
    set (front := (base +:+ "_") +:+ replace_colon_dot iso).
    assert (Hfront : String.length front
                     = S (d + 1 + String.length (replace_colon_dot iso))).
    { unfold front. rewrite !length_append, Hbase. simpl. lia. }
    unfold extension_of. rewrite lastIndexOf_append, Hext, Hfront.
    rewrite Nat.add_0_r.
    destruct (String.eqb_spec (front +:+ ext) "..") as [Heq | _].
    { apply (f_equal String.length) in Heq.
      rewrite length_append, Hfront, Hextlen in Heq. simpl in Heq. lia. }
    rewrite <- Hfront, length_append.
    replace (String.length front + String.length ext - String.length front)%nat
      with (String.length ext) by lia.
    apply substring_append_r.
  - rewrite basename_no_suffix_no_dir by exact Hslash.
    rewrite append_empty_r. unfold extension_of.
    rewrite lastIndexOf_append.
    change ("_" +:+ replace_colon_dot iso)
      with (String "_" (replace_colon_dot iso)).
    cbn [lastIndexOf]. rewrite (count_zero_lastIndexOf _ _ Hts).
    cbn [Ascii.eqb Bool.eqb]. rewrite HL. reflexivity.
Qed.

Lemma filename_has_no_slash (iso originalname : string) :
  count_char "/" originalname = 0%nat ->
  count_char "/" iso = 0%nat ->
  count_char "/" (filename iso originalname) = 0%nat.
Proof.
  intros Hslash Hiso.
  rewrite count_char_filename by (done || discriminate).
  rewrite count_char_replace_colon_dot. cbn [Ascii.eqb orb Bool.eqb]. lia.
Qed.

(** X19. The allocated name has the extension of the original name (for
    names without directory part other than [".."] and a clock string without
    [/]). *)
Theorem filename_keeps_the_extension (iso originalname : string) :
  count_char "/" originalname = 0%nat ->
  count_char "/" iso = 0%nat ->
  originalname <> ".." ->
  path.extname (filename iso originalname) = path.extname originalname.
Proof.
  intros Hslash Hiso Hne.
  pose proof (filename_has_no_slash iso originalname Hslash Hiso) as Hres.
  rewrite (extname_no_dir _ Hres), (extname_no_dir _ Hslash).
  by apply extension_of_filename.
Qed.

Lemma filename_keeps_the_extension_witness :
  path.extname (filename "2024-01-02T03:04:05.678Z" "a.tar.gz")
  = path.extname "a.tar.gz".
Proof.
  apply (filename_keeps_the_extension "2024-01-02T03:04:05.678Z" "a.tar.gz");
    [reflexivity | reflexivity | discriminate].
Defined.

(** X20. Two allocations with clock strings of the same length collide
    exactly when the original names are equal and the sanitised clock strings
    are equal (names without directory part other than [".."]). *)
Theorem filename_collides_only_on_same_name_and_instant
    (iso1 iso2 name1 name2 : string) :
  count_char "/" name1 = 0%nat -> name1 <> ".." ->
  count_char "/" name2 = 0%nat -> name2 <> ".." ->
  count_char "/" iso1 = 0%nat -> count_char "/" iso2 = 0%nat ->
  String.length iso1 = String.length iso2 ->
  filename iso1 name1 = filename iso2 name2 <->
  name1 = name2 /\ replace_colon_dot iso1 = replace_colon_dot iso2.
Proof.
  intros Hs1 Hn1 Hs2 Hn2 Hi1 Hi2 Hlen. split.
  - intros Heq.
    assert (He1 : path.extname (filename iso1 name1) = path.extname name1).
    { rewrite (extname_no_dir _ (filename_has_no_slash iso1 name1 Hs1 Hi1)).
      rewrite (extname_no_dir _ Hs1). by apply extension_of_filename. }
    assert (He2 : path.extname (filename iso2 name2) = path.extname name2).
    { rewrite (extname_no_dir _ (filename_has_no_slash iso2 name2 Hs2 Hi2)).
      rewrite (extname_no_dir _ Hs2). by apply extension_of_filename. }
    rewrite Heq, He2 in He1.
    pose proof (basename_extname_no_dir name1 Hs1) as Hsplit1.
    pose proof (basename_extname_no_dir name2 Hs2) as Hsplit2.
    unfold filename in Heq. rewrite <- He1 in *.
    set (ext := path.extname name2) in *.
    set (b1 := path.basename name1 ext) in *.
    set (b2 := path.basename name2 ext) in *.
    rewrite <- !append_assoc in Heq. apply append_inj_r in Heq.
    rewrite !append_assoc in Heq.
    assert (Hb : String.length b1 = String.length b2).
    { apply (f_equal String.length) in Heq.
      rewrite !length_append, !replace_colon_dot_length in Heq. lia. }
    destruct (append_inj_length _ _ _ _ Hb Heq) as [Hbeq Hrest].
    split; [by rewrite <- Hsplit1, <- Hsplit2, Hbeq|].
    rewrite !append_String in Hrest. by injection Hrest.
  - intros [-> Hts]. unfold filename. by rewrite Hts.
Qed.

Lemma filename_collides_only_on_same_name_and_instant_witness :
  filename "2024-01-02T03:04:05.678Z" "a.txt"
  = filename "2024-01-02T03:04:05.679Z" "a.txt" <->
  "a.txt" = "a.txt"
  /\ replace_colon_dot "2024-01-02T03:04:05.678Z"
     = replace_colon_dot "2024-01-02T03:04:05.679Z".
Proof.
  apply (filename_collides_only_on_same_name_and_instant
           "2024-01-02T03:04:05.678Z" "2024-01-02T03:04:05.679Z"
           "a.txt" "a.txt");
    first [reflexivity | discriminate].
Defined.

(** ** Which uploads are read back *)

Lemma startsWith_spec (s p : string) :
  startsWith s p = true <-> exists rest, s = p +:+ rest.
Proof.
  unfold startsWith. revert s. induction p as [|a p IH]; intros s.
  - split; [intros _; by exists s | intros _; by destruct s].
  - destruct s as [|b s]; simpl.
    + split; [discriminate | intros [rest H]; discriminate H].
    + destruct (ascii_dec a b) as [<- | Hab].
      * rewrite IH. split; intros [rest H]; exists rest.
        -- rewrite append_String. by rewrite H.
        -- rewrite append_String in H. by injection H.
      * split; [discriminate|]. intros [rest H].
        rewrite append_String in H. injection H as H _. congruence.
Qed.

Lemma endsWith_spec (s p : string) :
  endsWith s p = true <-> exists stem, s = stem +:+ p.
Proof.
  unfold endsWith. split.
  - intros H. apply andb_prop in H as [Hlen Heq].
    apply Nat.leb_le in Hlen. apply String.eqb_eq in Heq.
    exists (String.substring 0 (String.length s - String.length p) s).
    pose proof (substring_split s (String.length s - String.length p)
                  ltac:(lia)) as Hsplit.
    replace (String.length s - (String.length s - String.length p))%nat
      with (String.length p) in Hsplit by lia.
    rewrite Heq in Hsplit. symmetry. exact Hsplit.
  - intros [stem ->]. rewrite length_append.
    replace (String.length stem + String.length p - String.length p)%nat
      with (String.length stem) by lia.
    rewrite substring_append_r, String.eqb_refl.
    destruct (Nat.leb_spec (String.length p)
                (String.length stem + String.length p)); [reflexivity | lia].
Qed.

(** X8. The saved file of a successful upload is read back exactly when its
    MIME type starts with [text/] or its original name ends in [.json],
    [.js], [.html] or [.css]. *)
Theorem preview_read_iff
    (w : World) (f : File.t) (fields : list (string * json)) :
  In (fs_call op_readFile (File.path f))
     (trace (post_upload w None
               {| req_file := Some f; req_body := Some fields |})) <->
  (exists rest, File.mimetype f = "text/" +:+ rest)
  \/ (exists stem suffix,
        In suffix [".json"; ".js"; ".html"; ".css"]
        /\ File.originalname f = stem +:+ suffix).
Proof.
  rewrite post_upload_success_trace.
  assert (Hcond :
    startsWith (File.mimetype f) "text/"
    || endsWith (File.originalname f) ".json"
    || endsWith (File.originalname f) ".js"
    || endsWith (File.originalname f) ".html"
    || endsWith (File.originalname f) ".css" = true <->
    (exists rest, File.mimetype f = "text/" +:+ rest)
    \/ (exists stem suffix,
          In suffix [".json"; ".js"; ".html"; ".css"]
          /\ File.originalname f = stem +:+ suffix)).
  { rewrite !orb_true_iff, startsWith_spec, !endsWith_spec. split.
    - intros [[[[H | [stem H]] | [stem H]] | [stem H]] | [stem H]];
        [by left | right; exists stem; eexists; split; [|exact H]..].
      + by left.
      + right; by left.
      + right; right; by left.
      + right; right; right; by left.
    - intros [H | (stem & suffix & Hin & H)]; [tauto|].
      cbn [In] in Hin.
      destruct Hin as [<- | [<- | [<- | [<- | []]]]]; eauto 10. }
  rewrite <- Hcond. unfold log_preview, readFile, emit, ret.
  destruct (startsWith (File.mimetype f) "text/"
            || endsWith (File.originalname f) ".json"
            || endsWith (File.originalname f) ".js"
            || endsWith (File.originalname f) ".html"
            || endsWith (File.originalname f) ".css").
  - split; [reflexivity|]. intros _. apply in_or_app. right.
    rewrite !bind_pair. cbn [trace value fst snd app]. by left.
  - split; [|discriminate]. intros Hin.
    apply in_app_or in Hin as [Hin | Hin]; cbn [trace fst In] in Hin.
    + destruct Hin as [H | [H | []]]; discriminate H.
    + destruct Hin.
Qed.
